(** * nomad-autoscaler: the agent's supervision loop and evaluation pipeline

    A shallow embedding of [agent.Agent] (Run, loadPlugins, monitorPolicy,
    handlePolicy) and of the [helper/blocking] package, followed by the
    properties of these functions.

    Conventions of the embedding:
    - Go integers ([uint64], [int64], [time.Duration] in nanoseconds) are [Z];
    - a Go [error] is the text of its message; [nil] is [None];
    - Go maps are [gmap]s;
    - every call that leaves the agent (plugin managers, plugin RPCs, the
      policy storage, the logger, timers, goroutines and contexts) is recorded
      in order in a trace of events, together with the error it returned;
    - a [for { select { ... } }] loop is a recursion over the list of
      communications the select received; when the list is exhausted the
      goroutine is blocked in the select. *)

From stdpp Require Import gmap strings list pretty.
From Stdlib Require Import ZArith Lia.

Local Open Scope string_scope.
Local Open Scope list_scope.
Local Open Scope Z_scope.

(** ** Package helper/blocking *)

Module blocking.

(** [func IndexHasChange(new, old uint64) bool] *)
Definition IndexHasChange (new old : Z) : bool :=
  if new <=? old then false else true.

(** [func FindMaxFound(new, old uint64) uint64] *)
Definition FindMaxFound (new old : Z) : Z :=
  if new <=? old then old else new.

(** The values a [uint64] can hold. *)
Definition uint64 (x : Z) : Prop := 0 <= x < 2 ^ 64.

End blocking.

(** ** Package agent: data *)

Module agent.

Definition error := string.
Definition Duration := Z.

(** [time.Second], in nanoseconds. *)
Definition Second : Duration := 1000000000.

Definition Cfg := gmap string string.

(** [policystorage.Policy], as far as the agent reads it. *)
Record PolicyTarget := {
  target_Name : string;
  target_Config : Cfg
}.

Record PolicyStrategy := {
  strategy_Name : string;
  strategy_Min : Z;
  strategy_Max : Z;
  strategy_Config : Cfg
}.

Record Policy := {
  ID : string;
  Source : string;
  Query : string;
  Target : PolicyTarget;
  Strategy : PolicyStrategy;
  Interval : Duration
}.

(** [strategy.Action], [strategy.RunRequest], [strategy.RunResponse]. *)
Record Action := {
  Count : Z;
  Reason : string
}.

Record RunRequest (Value : Type) := {
  CurrentCount : Z;
  MinCount : Z;
  MaxCount : Z;
  CurrentValue : Value;
  req_Config : Cfg
}.
Arguments CurrentCount {Value} _.
Arguments MinCount {Value} _.
Arguments MaxCount {Value} _.
Arguments CurrentValue {Value} _.
Arguments req_Config {Value} _.

Record RunResponse := {
  Actions : list Action
}.

(** The agent's configuration: the [APM], [Target] and [Strategy] blocks
    have the same three fields. *)
Record PluginBlock := {
  Name : string;
  Driver : string;
  Config : Cfg
}.

Record NomadBlock := {
  Address : string;
  Region : string
}.

Record AgentConfig := {
  Nomad : NomadBlock;
  APMs : list PluginBlock;
  Targets : list PluginBlock;
  Strategies : list PluginBlock;
  PluginDir : string;
  ScanInterval : string
}.

(** [plugin.ClientConfig]: the handshake is the constant
    [PluginHandshakeConfig]; what varies is the key of the plugin set and
    the command. *)
Record HandshakeConfig := {
  ProtocolVersion : Z;
  MagicCookieKey : string;
  MagicCookieValue : string
}.

Definition PluginHandshakeConfig : HandshakeConfig :=
  {| ProtocolVersion := 1; MagicCookieKey := "magic"; MagicCookieValue := "magic" |}.

Record ClientConfig := {
  cc_HandshakeConfig : HandshakeConfig;
  cc_Plugins : string;
  cc_Cmd : string
}.

(** ** The trace *)

Inductive Kind := KAPM | KTarget | KStrategy.

Inductive Level := Info | Error.

Inductive Call (Value : Type) :=
| CNewClient (region address : string)
| CRegisterPlugin (k : Kind) (name : string) (cc : ClientConfig)
| CDispense (k : Kind) (name : string)
| CSetConfig (k : Kind) (name : string) (cfg : Cfg)
| CKill (k : Kind)
| CCount (cfg : Cfg)
| CQuery (q : string)
| CRun (req : RunRequest Value)
| CScale (a : Action) (cfg : Cfg)
| CGet (id : string)
| CNewTicker (d : Duration)
| CTickerStop (d : Duration)
| CGoMonitor (ctx : nat) (id : string)
| CCancel (ctx : nat)
| CGoCancel (ctx : nat).
Arguments CNewClient {Value}.
Arguments CRegisterPlugin {Value}.
Arguments CDispense {Value}.
Arguments CSetConfig {Value}.
Arguments CKill {Value}.
Arguments CCount {Value}.
Arguments CQuery {Value}.
Arguments CRun {Value}.
Arguments CScale {Value}.
Arguments CGet {Value}.
Arguments CNewTicker {Value}.
Arguments CTickerStop {Value}.
Arguments CGoMonitor {Value}.
Arguments CCancel {Value}.
Arguments CGoCancel {Value}.

(** What a call returned: an error, nothing besides a nil error, or the
    value that came with a nil error. *)
Inductive Returned (Value : Type) :=
| RErr (e : error)
| RNil
| RPlugin
| RCount (n : Z)
| RValue (v : Value)
| RActions (actions : list Action)
| RPolicy (p : Policy).
Arguments RErr {Value}.
Arguments RNil {Value}.
Arguments RPlugin {Value}.
Arguments RCount {Value}.
Arguments RValue {Value}.
Arguments RActions {Value}.
Arguments RPolicy {Value}.

(** An event is a call with what it returned, or a line of the log with the
    error attached to it under the key "error". *)
Inductive Event (Value : Type) :=
| ECall (c : Call Value) (r : Returned Value)
| ELog (lvl : Level) (msg : string) (err : option error).
Arguments ECall {Value}.
Arguments ELog {Value}.

(** ** What the agent depends on *)

Section Interfaces.
Variables W Value : Type.

(** [apm.APM], [target.Target] and [strategy.Strategy]: the methods of a
    dispensed plugin, acting on the world outside the agent. *)
Record APM := {
  apm_SetConfig : Cfg -> W -> W * option error;
  apm_Query : string -> W -> W * (error + Value)
}.

Record TargetPlugin := {
  tgt_SetConfig : Cfg -> W -> W * option error;
  tgt_Count : Cfg -> W -> W * (error + Z);
  tgt_Scale : Action -> Cfg -> W -> W * option error
}.

Record StrategyPlugin := {
  str_SetConfig : Cfg -> W -> W * option error;
  str_Run : RunRequest Value -> W -> W * (error + RunResponse)
}.

(** A plugin manager for plugins with interface [I]. [Dispense] returns
    either an error or a plugin the agent can call. *)
Record Manager (I : Type) := {
  RegisterPlugin : string -> ClientConfig -> W -> W * option error;
  Dispense : string -> W -> W * (error + I);
  Kill : W -> W
}.

Record Deps := {
  apmManager : Manager APM;
  targetManager : Manager TargetPlugin;
  strategyManager : Manager StrategyPlugin;
  (** [policystorage.PolicyStorage.Get] *)
  ps_Get : string -> W -> W * (error + Policy);
  (** [api.NewClient] on the client configuration of a region and address *)
  api_NewClient : string -> string -> W -> W * option error;
  time_ParseDuration : string -> error + Duration;
  path_Join : string -> string -> string
}.
End Interfaces.

Arguments apm_SetConfig {W Value}.
Arguments apm_Query {W Value}.
Arguments tgt_SetConfig {W}.
Arguments tgt_Count {W}.
Arguments tgt_Scale {W}.
Arguments str_SetConfig {W Value}.
Arguments str_Run {W Value}.
Arguments RegisterPlugin {W I}.
Arguments Dispense {W I}.
Arguments Kill {W I}.
Arguments apmManager {W Value}.
Arguments targetManager {W Value}.
Arguments strategyManager {W Value}.
Arguments ps_Get {W Value}.
Arguments api_NewClient {W Value}.
Arguments time_ParseDuration {W Value}.
Arguments path_Join {W Value}.

(** ** The agent's state and its monad *)

(** [context.CancelFunc]: the handle names the context it cancels. *)
Definition CancelFunc := nat.

(** What a run of the agent can change: the world behind the plugins and
    the policy storage, the configuration (the agent holds a pointer to it),
    the contexts created so far and those cancelled, and the monitor
    goroutines started (each with its context and policy ID). *)
Record State (W : Type) := {
  world : W;
  config : AgentConfig;
  ctx_next : nat;
  ctx_cancelled : gset nat;
  goroutines : list (nat * string)
}.
Arguments world {W}.
Arguments config {W}.
Arguments ctx_next {W}.
Arguments ctx_cancelled {W}.
Arguments goroutines {W}.

(** A Go function either returns or panics. *)
Inductive Res (A : Type) :=
| Ok (a : A)
| Panic (msg : string).
Arguments Ok {A}.
Arguments Panic {A}.

(** A function blocked in a [select] has not returned: it holds its local
    variables and waits. *)
Inductive Outcome (A L : Type) :=
| Returns (a : A)
| Blocked (locals : L).
Arguments Returns {A L}.
Arguments Blocked {A L}.

Definition M (W Value A : Type) : Type :=
  State W -> State W * list (Event Value) * Res A.

Definition ret {W Value A} (a : A) : M W Value A :=
  fun s => (s, [], Ok a).

Definition bind {W Value A B} (m : M W Value A) (f : A -> M W Value B) : M W Value B :=
  fun s =>
    match m s with
    | (s1, t1, Ok a) =>
        match f a s1 with
        | (s2, t2, r) => (s2, t1 ++ t2, r)
        end
    | (s1, t1, Panic msg) => (s1, t1, Panic msg)
    end.

Definition state_of {W Value A} (o : State W * list (Event Value) * Res A) : State W :=
  fst (fst o).
Definition trace_of {W Value A} (o : State W * list (Event Value) * Res A) : list (Event Value) :=
  snd (fst o).
Definition result_of {W Value A} (o : State W * list (Event Value) * Res A) : Res A :=
  snd o.

Declare Scope go_scope.
Delimit Scope go_scope with go.
Notation "'let*' x ':=' m 'in' k" := (bind m (fun x => k))
  (at level 10, x name, m at level 100, k at level 200) : go_scope.
Notation "m ';;' k" := (bind m (fun _ => k))
  (at level 100, k at level 200, right associativity) : go_scope.
Local Open Scope go_scope.

Section Agent.
Context {W Value : Type}.
Variable D : Deps W Value.

Abbreviation GoM := (M W Value).

(** *** Primitive steps *)

Definition returned {A} (describe : A -> Returned Value) (r : error + A) : Returned Value :=
  match r with inl e => RErr e | inr a => describe a end.

Definition returned_err (r : option error) : Returned Value :=
  match r with Some e => RErr e | None => RNil end.

Definition with_world (s : State W) (w : W) : State W :=
  {| world := w; config := config s; ctx_next := ctx_next s;
     ctx_cancelled := ctx_cancelled s; goroutines := goroutines s |}.

(** A call that returns [(value, err)]; [describe] is what the trace keeps
    of the value. *)
Definition call {A} (c : Call Value) (describe : A -> Returned Value)
           (f : W -> W * (error + A)) : GoM (error + A) :=
  fun s =>
    let (w, r) := f (world s) in
    (with_world s w, [ECall c (returned describe r)], Ok r).

(** A call that returns only [err]. *)
Definition call_err (c : Call Value) (f : W -> W * option error) : GoM (option error) :=
  fun s =>
    let (w, r) := f (world s) in
    (with_world s w, [ECall c (returned_err r)], Ok r).

(** A call that returns nothing. *)
Definition call_void (c : Call Value) (f : W -> W) : GoM unit :=
  fun s => (with_world s (f (world s)), [ECall c RNil], Ok tt).

Definition logger_Info (msg : string) : GoM unit :=
  fun s => (s, [ELog Info msg None], Ok tt).

(** [logger.Error(msg, "error", err)] *)
Definition logger_Error (msg : string) (err : error) : GoM unit :=
  fun s => (s, [ELog Error msg (Some err)], Ok tt).

Definition panic {A} (msg : string) : GoM A :=
  fun s => (s, [], Panic msg).

Definition get_config : GoM AgentConfig :=
  fun s => (s, [], Ok (config s)).

Definition set_config (c : AgentConfig) : GoM unit :=
  fun s =>
    ({| world := world s; config := c; ctx_next := ctx_next s;
        ctx_cancelled := ctx_cancelled s; goroutines := goroutines s |},
     [], Ok tt).

(** [time.NewTicker(d)]: "The duration d must be greater than zero; if
    not, NewTicker will panic." The ticker is known by its period. *)
Definition time_NewTicker (d : Duration) : GoM Duration :=
  if d <=? 0 then panic "non-positive interval for NewTicker"
  else fun s => (s, [ECall (CNewTicker d) RNil], Ok d).

Definition ticker_Stop (ticker : Duration) : GoM unit :=
  fun s => (s, [ECall (CTickerStop ticker) RNil], Ok tt).

(** [context.WithCancel(ctx)]: a fresh context and the function that
    cancels it. The state records the cancellations made through the
    functions; that the end of the parent [ctx] ends the context too is
    [cancel_children], in the process of [Run] and its monitors below. *)
Definition context_WithCancel : GoM (nat * CancelFunc) :=
  fun s =>
    ({| world := world s; config := config s; ctx_next := S (ctx_next s);
        ctx_cancelled := ctx_cancelled s; goroutines := goroutines s |},
     [], Ok (ctx_next s, ctx_next s)).

(** [cancel()] *)
Definition call_cancel (cancel : CancelFunc) : GoM unit :=
  fun s =>
    ({| world := world s; config := config s; ctx_next := ctx_next s;
        ctx_cancelled := {[ cancel ]} ∪ ctx_cancelled s; goroutines := goroutines s |},
     [ECall (CCancel cancel) RNil], Ok tt).

(** [go cancel()]: the cancellation runs in a goroutine of its own; the
    model lets it run at once. *)
Definition go_cancel (cancel : CancelFunc) : GoM unit :=
  fun s =>
    ({| world := world s; config := config s; ctx_next := ctx_next s;
        ctx_cancelled := {[ cancel ]} ∪ ctx_cancelled s; goroutines := goroutines s |},
     [ECall (CGoCancel cancel) RNil], Ok tt).

(** [go a.monitorPolicy(policyCtx, p.ID)]: the goroutine is started and
    recorded; its steps are those of [monitorPolicy] below, and [step], in
    the process of [Run] and its monitors, is where it takes them. *)
Definition go_monitorPolicy (ctx : nat) (id : string) : GoM unit :=
  fun s =>
    ({| world := world s; config := config s; ctx_next := ctx_next s;
        ctx_cancelled := ctx_cancelled s; goroutines := goroutines s ++ [(ctx, id)] |},
     [ECall (CGoMonitor ctx id) RNil], Ok tt).

(** *** handlePolicy *)

(** The loop over [results.Actions] that ends [handlePolicy]. *)
Fixpoint scaleTarget (target : TargetPlugin W) (p : Policy) (actions : list Action) : GoM unit :=
  match actions with
  | [] => ret tt
  | action :: rest =>
      logger_Info "scaling target";;
      let* err := call_err (CScale action (target_Config (Target p)))
                           (tgt_Scale target action (target_Config (Target p))) in
      match err with
      | Some e => logger_Error "failed to scale target" e
      | None => scaleTarget target p rest
      end
  end.

Definition handlePolicy (p : Policy) : GoM unit :=
  (* dispense plugins *)
  let* targetPlugin := call (CDispense KTarget (target_Name (Target p))) (fun _ => RPlugin)
                            (Dispense (targetManager D) (target_Name (Target p))) in
  match targetPlugin with
  | inl err => logger_Error "target plugin not initialized" err
  | inr target =>
  let* apmPlugin := call (CDispense KAPM (Source p)) (fun _ => RPlugin)
                         (Dispense (apmManager D) (Source p)) in
  match apmPlugin with
  | inl err => logger_Error "apm plugin not initialized" err
  | inr apm =>
  let* strategyPlugin := call (CDispense KStrategy (strategy_Name (Strategy p))) (fun _ => RPlugin)
                              (Dispense (strategyManager D) (strategy_Name (Strategy p))) in
  match strategyPlugin with
  | inl err => logger_Error "strategy plugin not initialized" err
  | inr strategy =>
  (* fetch target count *)
  logger_Info "fetching current count";;
  let* count := call (CCount (target_Config (Target p))) RCount
                     (tgt_Count target (target_Config (Target p))) in
  match count with
  | inl err => logger_Error "failed to fetch current count" err
  | inr currentCount =>
  (* query policy's APM *)
  logger_Info "querying APM";;
  let* queried := call (CQuery (Query p)) RValue (apm_Query apm (Query p)) in
  match queried with
  | inl err => logger_Error "failed to query APM" err
  | inr value =>
  (* calculate new count using policy's Strategy *)
  logger_Info "calculating new count";;
  let req := {| CurrentCount := currentCount;
                MinCount := strategy_Min (Strategy p);
                MaxCount := strategy_Max (Strategy p);
                CurrentValue := value;
                req_Config := strategy_Config (Strategy p) |} in
  let* ran := call (CRun req) (fun results => RActions (Actions results)) (str_Run strategy req) in
  match ran with
  | inl err => logger_Error "failed to calculate strategy" err
  | inr results =>
  match Actions results with
  | [] => logger_Info "nothing to do"
  | _ :: _ =>
  (* scale target *)
  scaleTarget target p (Actions results)
  end end end end end end end.

(** *** monitorPolicy *)

(** What the [select] of the monitor received. *)
Inductive MonitorSelect :=
| CtxDone
| TickerC.

(** The [for { select { ... } }] of [monitorPolicy]; [ticker] is the
    period of the current ticker. *)
Fixpoint monitorLoop (id : string) (defaultSleep ticker : Duration)
         (sel : list MonitorSelect) : GoM (Outcome unit Duration) :=
  match sel with
  | [] => ret (Blocked ticker)
  | CtxDone :: _ =>
      logger_Info "stopped policy check";;
      ret (Returns tt)
  | TickerC :: rest =>
      let* fetched := call (CGet id) RPolicy (ps_Get D id) in
      match fetched with
      | inl err =>
          logger_Error "failed to fetch policy" err;;
          monitorLoop id defaultSleep ticker rest
      | inr policy =>
          (* hack to update tick duration *)
          let sleepDuration :=
            if Interval policy =? 0 then defaultSleep else Interval policy in
          ticker_Stop ticker;;
          let* ticker' := time_NewTicker sleepDuration in
          handlePolicy policy;;
          monitorLoop id defaultSleep ticker' rest
      end
  end.

Definition monitorPolicy (id : string) (sel : list MonitorSelect) : GoM (Outcome unit Duration) :=
  logger_Info "start monitoring policy";;
  let* cfg := get_config in
  let defaultSleep :=
    match time_ParseDuration D (ScanInterval cfg) with
    | inr d => d
    | inl _ => 5 * Second
    end in
  let* ticker := time_NewTicker defaultSleep in
  monitorLoop id defaultSleep ticker sel.

(** *** loadPlugins *)

(** The body shared by the loops of [loadAPMPlugins], [loadTargetPlugins]
    and [loadStrategyPlugins]: log, register, dispense, configure, and
    return the first error. [key] is the key of the plugin set ("apm",
    "target", "strategy"), [what] the message of the log line. *)
Fixpoint loadBlocks {I : Type} (k : Kind) (key what : string) (mgr : Manager W I)
         (setConfig : I -> Cfg -> W -> W * option error)
         (pluginDir : string) (blocks : list PluginBlock) : GoM (option error) :=
  match blocks with
  | [] => ret None
  | block :: rest =>
      logger_Info what;;
      let pluginConfig :=
        {| cc_HandshakeConfig := PluginHandshakeConfig;
           cc_Plugins := key;
           cc_Cmd := path_Join D pluginDir (Driver block) |} in
      let* err := call_err (CRegisterPlugin k (Name block) pluginConfig)
                           (RegisterPlugin mgr (Name block) pluginConfig) in
      match err with
      | Some e => ret (Some e)
      | None =>
      (* configure plugin *)
      let* dispensed := call (CDispense k (Name block)) (fun _ => RPlugin) (Dispense mgr (Name block)) in
      match dispensed with
      | inl e => ret (Some e)
      | inr plugin =>
      let* err := call_err (CSetConfig k (Name block) (Config block))
                           (setConfig plugin (Config block)) in
      match err with
      | Some e => ret (Some e)
      | None => loadBlocks k key what mgr setConfig pluginDir rest
      end end end
  end.

(** The configuration of the built-in plugins. *)
Definition localNomadConfig (cfg : AgentConfig) : Cfg :=
  <[ "address" := Address (Nomad cfg) ]> (<[ "region" := Region (Nomad cfg) ]> ∅).

(** [a.config.APMs = append(a.config.APMs, block)] *)
Definition appendAPM (cfg : AgentConfig) (block : PluginBlock) : AgentConfig :=
  {| Nomad := Nomad cfg;
     APMs := APMs cfg ++ [block];
     Targets := Targets cfg;
     Strategies := Strategies cfg;
     PluginDir := PluginDir cfg;
     ScanInterval := ScanInterval cfg |}.

(** [a.config.Targets = append(a.config.Targets, block)] *)
Definition appendTarget (cfg : AgentConfig) (block : PluginBlock) : AgentConfig :=
  {| Nomad := Nomad cfg;
     APMs := APMs cfg;
     Targets := Targets cfg ++ [block];
     Strategies := Strategies cfg;
     PluginDir := PluginDir cfg;
     ScanInterval := ScanInterval cfg |}.

Definition loadAPMPlugins : GoM (option error) :=
  let* cfg := get_config in
  (* create default local-nomad target *)
  set_config (appendAPM cfg {| Name := "local-nomad"; Driver := "nomad-apm";
                               Config := localNomadConfig cfg |});;
  let* cfg := get_config in
  loadBlocks KAPM "apm" "loading APM plugin" (apmManager D) apm_SetConfig
             (PluginDir cfg) (APMs cfg).

Definition loadTargetPlugins : GoM (option error) :=
  let* cfg := get_config in
  (* create default local-nomad target *)
  set_config (appendTarget cfg {| Name := "local-nomad"; Driver := "nomad";
                                  Config := localNomadConfig cfg |});;
  let* cfg := get_config in
  loadBlocks KTarget "target" "loading Target plugin" (targetManager D) tgt_SetConfig
             (PluginDir cfg) (Targets cfg).

Definition loadStrategyPlugins : GoM (option error) :=
  let* cfg := get_config in
  loadBlocks KStrategy "strategy" "loading Strategy plugin" (strategyManager D) str_SetConfig
             (PluginDir cfg) (Strategies cfg).

Definition loadPlugins : GoM (option error) :=
  (* load APM plugins *)
  let* err := loadAPMPlugins in
  match err with
  | Some e => ret (Some e)
  | None =>
  (* load target plugins *)
  let* err := loadTargetPlugins in
  match err with
  | Some e => ret (Some e)
  | None =>
  (* load strategy plugins *)
  let* err := loadStrategyPlugins in
  match err with
  | Some e => ret (Some e)
  | None => ret None
  end end end.

(** *** Run *)

(** What the [select] of [Run] received. *)
Inductive RunSelect :=
| PoliciesCn (policies : list Policy)
| ErrCn (err : error)
| RunCtxDone.

(** "handle policies": the first loop over the received policies. *)
Fixpoint startMonitors (policies : list Policy)
         (policyMonitors : gmap string CancelFunc) : GoM (gmap string CancelFunc) :=
  match policies with
  | [] => ret policyMonitors
  | p :: rest =>
      match policyMonitors !! ID p with
      | Some _ => startMonitors rest policyMonitors
      | None =>
          let* ctx_cancel := context_WithCancel in
          go_monitorPolicy (fst ctx_cancel) (ID p);;
          startMonitors rest (<[ ID p := snd ctx_cancel ]> policyMonitors)
      end
  end.

(** The inner loop of "cancel old policies": is [id] among the policies? *)
Fixpoint found (id : string) (policies : list Policy) : bool :=
  match policies with
  | [] => false
  | p :: rest => if String.eqb (ID p) id then true else found id rest
  end.

(** "cancel old policies": the loop over the entries of [policyMonitors].
    Go ranges over a map in no fixed order; the entries come here in the
    order of [map_to_list]. The loop does not change the map. *)
Fixpoint cancelOld (policies : list Policy) (entries : list (string * CancelFunc)) : GoM unit :=
  match entries with
  | [] => ret tt
  | (id, cancel) :: rest =>
      (if found id policies then ret tt else call_cancel cancel);;
      cancelOld policies rest
  end.

(** "stop policy check goroutines" *)
Fixpoint stopMonitors (entries : list (string * CancelFunc)) : GoM unit :=
  match entries with
  | [] => ret tt
  | (_, cancel) :: rest => go_cancel cancel;; stopMonitors rest
  end.

(** The [Loop: for { select { ... } }] of [Run] and the [return nil]
    after it. *)
Fixpoint RunLoop (policyMonitors : gmap string CancelFunc) (sel : list RunSelect)
  : GoM (Outcome (option error) (gmap string CancelFunc)) :=
  match sel with
  | [] => ret (Blocked policyMonitors)
  | PoliciesCn policies :: rest =>
      logger_Info ("found " +:+ pretty (length policies) +:+ " policies");;
      (* handle policies *)
      let* policyMonitors' := startMonitors policies policyMonitors in
      (* cancel old policies *)
      cancelOld policies (map_to_list policyMonitors');;
      RunLoop policyMonitors' rest
  | ErrCn err :: rest =>
      logger_Error "failed to fetch policies" err;;
      RunLoop policyMonitors rest
  | RunCtxDone :: _ =>
      (* stop policy check goroutines *)
      stopMonitors (map_to_list policyMonitors);;
      (* stop plugins before exiting *)
      logger_Info "killing plugins";;
      call_void (CKill KAPM) (Kill (apmManager D));;
      call_void (CKill KTarget) (Kill (targetManager D));;
      call_void (CKill KStrategy) (Kill (strategyManager D));;
      ret (Returns None)
  end.

Definition Run (sel : list RunSelect) : GoM (Outcome (option error) (gmap string CancelFunc)) :=
  let* cfg := get_config in
  let* err := call_err (CNewClient (Region (Nomad cfg)) (Address (Nomad cfg)))
                       (api_NewClient D (Region (Nomad cfg)) (Address (Nomad cfg))) in
  match err with
  | Some e => ret (Returns (Some ("failed to instantiate Nomad client: " +:+ e)))
  | None =>
  (* launch plugins *)
  let* err := loadPlugins in
  match err with
  | Some e => ret (Returns (Some ("failed to load plugins: " +:+ e)))
  | None =>
  (* loop like there's no tomorrow *)
  RunLoop ∅ sel
  end end.

(** *** Reading states and traces *)

(** The policy IDs of the monitor goroutines whose context has not been
    cancelled. *)
Definition liveMonitors (s : State W) : list string :=
  omap (fun g => if decide (fst g ∈ ctx_cancelled s) then None else Some (snd g))
       (goroutines s).

End Agent.

(** ** Reading traces *)

#[global] Instance Kind_eq_dec : EqDecision Kind.
Proof. solve_decision. Defined.

Section Traces.
Context {Value : Type}.

(** Replays a run after the events [tr] that led to it. *)
Definition after {W A} (tr : list (Event Value))
           (o : State W * list (Event Value) * Res A) : State W * list (Event Value) * Res A :=
  (state_of o, tr ++ trace_of o, result_of o).

(** The stages of an evaluation cycle. *)
Inductive Stage :=
| SDispenseTarget
| SCount
| SDispenseAPM
| SQuery
| SDispenseStrategy
| SRun
| SScale.

Definition stage_of (e : Event Value) : option Stage :=
  match e with
  | ECall (CDispense KTarget _) _ => Some SDispenseTarget
  | ECall (CDispense KAPM _) _ => Some SDispenseAPM
  | ECall (CDispense KStrategy _) _ => Some SDispenseStrategy
  | ECall (CCount _) _ => Some SCount
  | ECall (CQuery _) _ => Some SQuery
  | ECall (CRun _) _ => Some SRun
  | ECall (CScale _ _) _ => Some SScale
  | _ => None
  end.

Definition stages (tr : list (Event Value)) : list Stage := omap stage_of tr.




(** The Scale calls of a trace: action, configuration, what came back. *)
Definition scale_call (e : Event Value) : option (Action * Cfg * Returned Value) :=
  match e with
  | ECall (CScale a cfg) r => Some (a, cfg, r)
  | _ => None
  end.

Definition scale_calls (tr : list (Event Value)) : list (Action * Cfg * Returned Value) :=
  omap scale_call tr.

(** The lines the trace logs at level Error. *)
Definition is_error_log (e : Event Value) : bool :=
  match e with
  | ELog Error _ _ => true
  | _ => false
  end.

(** The names registered with the manager of kind [k], in order. *)
Definition registration (k : Kind) (e : Event Value) : option string :=
  match e with
  | ECall (CRegisterPlugin k' name _) _ => if decide (k = k') then Some name else None
  | _ => None
  end.

Definition registered (k : Kind) (tr : list (Event Value)) : list string :=
  omap (registration k) tr.

(** The calls of the start of [Run]: the client and the plugin load pass. *)
Definition startup_call (c : Call Value) : bool :=
  match c with
  | CNewClient _ _ | CRegisterPlugin _ _ _ | CDispense _ _ | CSetConfig _ _ _ => true
  | _ => false
  end.

Definition failed_startup (e : Event Value) : bool :=
  match e with
  | ECall c (RErr _) => startup_call c
  | _ => false
  end.

(** The error [Run] returns for a failed call of its start. *)
Definition startup_error (c : Call Value) (e : error) : error :=
  match c with
  | CNewClient _ _ => "failed to instantiate Nomad client: " +:+ e
  | _ => "failed to load plugins: " +:+ e
  end.

(** *** The traces of an evaluation cycle

    How a cycle of [handlePolicy] can end, and the trace each end leaves.
    These describe traces; the properties below relate them to the code. *)

Inductive CycleEnd :=
| EndTarget (e : error)
| EndAPM (e : error)
| EndStrategy (e : error)
| EndCount (e : error)
| EndQuery (count : Z) (e : error)
| EndRun (count : Z) (value : Value) (e : error)
| EndNothing (count : Z) (value : Value)
| EndScaled (count : Z) (value : Value) (actions done : list Action)
            (failure : option (Action * error)).

Definition request (p : Policy) (count : Z) (value : Value) : RunRequest Value :=
  {| CurrentCount := count;
     MinCount := strategy_Min (Strategy p);
     MaxCount := strategy_Max (Strategy p);
     CurrentValue := value;
     req_Config := strategy_Config (Strategy p) |}.

Definition dispense_trace (p : Policy) : list (Event Value) :=
  [ECall (CDispense KTarget (target_Name (Target p))) RPlugin;
   ECall (CDispense KAPM (Source p)) RPlugin;
   ECall (CDispense KStrategy (strategy_Name (Strategy p))) RPlugin].

Definition count_trace (p : Policy) (r : Returned Value) : list (Event Value) :=
  [ELog Info "fetching current count" None; ECall (CCount (target_Config (Target p))) r].

Definition query_trace (p : Policy) (r : Returned Value) : list (Event Value) :=
  [ELog Info "querying APM" None; ECall (CQuery (Query p)) r].

Definition run_trace (p : Policy) (count : Z) (value : Value) (r : Returned Value)
  : list (Event Value) :=
  [ELog Info "calculating new count" None; ECall (CRun (request p count value)) r].

Definition scaled (cfg : Cfg) (a : Action) : list (Event Value) :=
  [ELog Info "scaling target" None; ECall (CScale a cfg) RNil].

Definition scale_failure (cfg : Cfg) (failure : option (Action * error)) : list (Event Value) :=
  match failure with
  | None => []
  | Some (a, e) =>
      [ELog Info "scaling target" None; ECall (CScale a cfg) (RErr e);
       ELog Error "failed to scale target" (Some e)]
  end.

Definition scale_trace (cfg : Cfg) (done : list Action) (failure : option (Action * error))
  : list (Event Value) :=
  flat_map (scaled cfg) done ++ scale_failure cfg failure.

(** [done] are the actions scaled before the loop over [actions] ended:
    all of them, or those before the one that failed. *)
Definition scale_end (actions done : list Action) (failure : option (Action * error)) : Prop :=
  match failure with
  | None => done = actions
  | Some (a, _) => exists rest, actions = done ++ a :: rest
  end.

Definition cycle_trace (p : Policy) (c : CycleEnd) : list (Event Value) :=
  match c with
  | EndTarget e =>
      [ECall (CDispense KTarget (target_Name (Target p))) (RErr e);
       ELog Error "target plugin not initialized" (Some e)]
  | EndAPM e =>
      [ECall (CDispense KTarget (target_Name (Target p))) RPlugin;
       ECall (CDispense KAPM (Source p)) (RErr e);
       ELog Error "apm plugin not initialized" (Some e)]
  | EndStrategy e =>
      [ECall (CDispense KTarget (target_Name (Target p))) RPlugin;
       ECall (CDispense KAPM (Source p)) RPlugin;
       ECall (CDispense KStrategy (strategy_Name (Strategy p))) (RErr e);
       ELog Error "strategy plugin not initialized" (Some e)]
  | EndCount e =>
      dispense_trace p ++ count_trace p (RErr e)
      ++ [ELog Error "failed to fetch current count" (Some e)]
  | EndQuery count e =>
      dispense_trace p ++ count_trace p (RCount count) ++ query_trace p (RErr e)
      ++ [ELog Error "failed to query APM" (Some e)]
  | EndRun count value e =>
      dispense_trace p ++ count_trace p (RCount count) ++ query_trace p (RValue value)
      ++ run_trace p count value (RErr e)
      ++ [ELog Error "failed to calculate strategy" (Some e)]
  | EndNothing count value =>
      dispense_trace p ++ count_trace p (RCount count) ++ query_trace p (RValue value)
      ++ run_trace p count value (RActions [])
      ++ [ELog Info "nothing to do" None]
  | EndScaled count value actions done failure =>
      dispense_trace p ++ count_trace p (RCount count) ++ query_trace p (RValue value)
      ++ run_trace p count value (RActions actions)
      ++ scale_trace (target_Config (Target p)) done failure
  end.

(** *** The traces of the start of [Run] *)

(** No call of the start failed. *)
Definition clean (tr : list (Event Value)) : Prop :=
  Forall (fun ev => failed_startup ev = false) tr.

(** The trace ends with a failed call of the plugin load pass, the first
    call to fail, and [e] is its error. *)
Definition load_failed (tr : list (Event Value)) (e : error) : Prop :=
  exists pre c,
    tr = pre ++ [ECall c (RErr e)] /\
    startup_call c = true /\
    startup_error c e = "failed to load plugins: " +:+ e /\
    clean pre.

Definition cycle_end_ok (c : CycleEnd) : Prop :=
  match c with
  | EndScaled _ _ actions done failure => actions <> [] /\ scale_end actions done failure
  | _ => True
  end.

End Traces.

(** The value of [sleepDuration] in [monitorPolicy] after fetching [p]. *)
Definition sleepDuration (defaultSleep : Duration) (p : Policy) : Duration :=
  if Interval p =? 0 then defaultSleep else Interval p.

Definition names (blocks : list PluginBlock) : list string := map Name blocks.

(** The blocks the configuration gives for a kind of plugin. *)
Definition configured (k : Kind) (cfg : AgentConfig) : list PluginBlock :=
  match k with
  | KAPM => APMs cfg
  | KTarget => Targets cfg
  | KStrategy => Strategies cfg
  end.

Definition has_done (sel : list RunSelect) : bool :=
  existsb (fun r => match r with RunCtxDone => true | _ => false end) sel.

(** *** Reading the traces of a monitor, of the load pass and of [Run] *)

Section MoreTraces.
Context {Value : Type}.

(** The policies a trace shows fetched with success, in order. *)
Definition fetched_policy (e : Event Value) : option Policy :=
  match e with
  | ECall (CGet _) (RPolicy p) => Some p
  | _ => None
  end.

Definition fetched (tr : list (Event Value)) : list Policy := omap fetched_policy tr.

Definition count_events (f : Event Value -> bool) (tr : list (Event Value)) : nat :=
  length (List.filter f tr).

Definition is_get (e : Event Value) : bool :=
  match e with
  | ECall (CGet _) _ => true
  | _ => false
  end.

Definition is_fetch_failure (e : Event Value) : bool :=
  match e with
  | ELog Error "failed to fetch policy" _ => true
  | _ => false
  end.

(** A cycle of [handlePolicy] starts by dispensing the target. *)
Definition starts_cycle (e : Event Value) : bool :=
  match e with
  | ECall (CDispense KTarget _) _ => true
  | _ => false
  end.

(** The managers killed, in order. *)
Definition kill_of (e : Event Value) : option Kind :=
  match e with
  | ECall (CKill k) _ => Some k
  | _ => None
  end.

Definition kills (tr : list (Event Value)) : list Kind := omap kill_of tr.

(** What loading one block leaves in the trace when nothing fails; [join]
    is [path.Join]. *)
Definition load_events (join : string -> string -> string) (k : Kind) (key what dir : string)
           (block : PluginBlock) : list (Event Value) :=
  [ELog Info what None;
   ECall (CRegisterPlugin k (Name block)
            {| cc_HandshakeConfig := PluginHandshakeConfig;
               cc_Plugins := key;
               cc_Cmd := join dir (Driver block) |}) RNil;
   ECall (CDispense k (Name block)) RPlugin;
   ECall (CSetConfig k (Name block) (Config block)) RNil].

End MoreTraces.

(** The ticks a monitor receives before its context is done. *)
Fixpoint ticks (sel : list MonitorSelect) : nat :=
  match sel with
  | TickerC :: rest => S (ticks rest)
  | _ => 0%nat
  end.

Definition monitor_done (sel : list MonitorSelect) : bool :=
  existsb (fun r => match r with CtxDone => true | TickerC => false end) sel.

(** The built-in blocks of [loadAPMPlugins] and [loadTargetPlugins]. *)
Definition localNomadAPM (cfg : AgentConfig) : PluginBlock :=
  {| Name := "local-nomad"; Driver := "nomad-apm"; Config := localNomadConfig cfg |}.

Definition localNomadTarget (cfg : AgentConfig) : PluginBlock :=
  {| Name := "local-nomad"; Driver := "nomad"; Config := localNomadConfig cfg |}.

(** The policy IDs of the sets [Run] received. *)
Definition seen (sel : list RunSelect) : list string :=
  flat_map (fun r => match r with
                     | PoliciesCn policies => map ID policies
                     | _ => []
                     end) sel.

(** A state in which [Run] has started no monitor and cancelled no
    context. *)
Definition fresh {W} (s : State W) : Prop :=
  goroutines s = [] /\ ctx_cancelled s = ∅.

(** What the loop of [Run] keeps between [policyMonitors] and the state:
    the monitors started are the entries of the map, one for each ID, each
    with a context of its own, and the contexts in use are below the next
    one. *)
Definition supervised {W} (m : gmap string CancelFunc) (s : State W) : Prop :=
  (forall ctx id, (ctx, id) ∈ goroutines s <-> m !! id = Some ctx) /\
  NoDup (goroutines s).*2 /\
  (forall id ctx, m !! id = Some ctx -> (ctx < ctx_next s)%nat) /\
  (forall ctx, ctx ∈ ctx_cancelled s -> (ctx < ctx_next s)%nat) /\
  (forall id1 id2 ctx, m !! id1 = Some ctx -> m !! id2 = Some ctx -> id1 = id2).

(** *** The stages of a cycle with what came back *)

Section StageOutcomes.
Context {Value : Type}.






End StageOutcomes.


(** ** The start of [Run], as the specification words it

    "Only two classes of error can stop the whole system: failure to
    construct the upstream client connection, and failure during the
    one-time plugin load pass at startup" (register, dispense or SetConfig
    of a plugin). These definitions follow those words, on the calls of
    [Deps] alone, with the world passed from one call to the next; the
    properties compare [Run] with them. *)

Section SpecStartup.
Context {W Value : Type}.
Variable D : Deps W Value.

(** The first error of a load pass over [blocks]: each block is
    registered, dispensed and configured, in order, until a call fails. *)
Fixpoint spec_first_load_error {I : Type} (key : string) (mgr : Manager W I)
         (setConfig : I -> Cfg -> W -> W * option error) (dir : string)
         (blocks : list PluginBlock) (w : W) : W * option error :=
  match blocks with
  | [] => (w, None)
  | block :: rest =>
      let (w1, registered) :=
        RegisterPlugin mgr (Name block)
          {| cc_HandshakeConfig := PluginHandshakeConfig;
             cc_Plugins := key;
             cc_Cmd := path_Join D dir (Driver block) |} w in
      match registered with
      | Some e => (w1, Some e)
      | None =>
          let (w2, dispensed) := Dispense mgr (Name block) w1 in
          match dispensed with
          | inl e => (w2, Some e)
          | inr plugin =>
              let (w3, configured) := setConfig plugin (Config block) w2 in
              match configured with
              | Some e => (w3, Some e)
              | None => spec_first_load_error key mgr setConfig dir rest w3
              end
          end
      end
  end.

(** The first error of the whole load pass: the metric sources and the
    built-in one, the targets and the built-in one, the strategies. *)
Definition spec_load_pass (cfg : AgentConfig) (w : W) : W * option error :=
  let (w1, apms) :=
    spec_first_load_error "apm" (apmManager D) apm_SetConfig (PluginDir cfg)
                          (APMs cfg ++ [localNomadAPM cfg]) w in
  match apms with
  | Some e => (w1, Some e)
  | None =>
      let (w2, targets) :=
        spec_first_load_error "target" (targetManager D) tgt_SetConfig (PluginDir cfg)
                              (Targets cfg ++ [localNomadTarget cfg]) w1 in
      match targets with
      | Some e => (w2, Some e)
      | None =>
          spec_first_load_error "strategy" (strategyManager D) str_SetConfig
                                (PluginDir cfg) (Strategies cfg) w2
      end
  end.

(** The error [Run] has to return for its start, if any: the client, then
    the load pass. *)
Definition spec_startup (cfg : AgentConfig) (w : W) : W * option error :=
  let (w0, client) := api_NewClient D (Region (Nomad cfg)) (Address (Nomad cfg)) w in
  match client with
  | Some e => (w0, Some ("failed to instantiate Nomad client: " +:+ e))
  | None =>
      let (w1, loaded) := spec_load_pass cfg w0 in
      match loaded with
      | Some e => (w1, Some ("failed to load plugins: " +:+ e))
      | None => (w1, None)
      end
  end.

End SpecStartup.

(** ** The process: [Run] together with the monitors it starts

    [Run] above records the goroutines it starts and does not run them.
    The process runs them: a schedule says, step by step, which goroutine
    goes on and what its [select] receives. A monitor that panics ends the
    process, as a panic in a goroutine does in Go (nothing recovers it).
    The context of a monitor is a child of the context of [Run]: it is
    cancelled when that one is, and from its creation when that one is
    already done.

    One step of a goroutine runs from one [select] to the next; the calls
    of two monitors between two selects are not interleaved. *)

Section Process.
Context {W Value : Type}.
Variable D : Deps W Value.

Inductive MonitorState :=
| Started (id : string)
| Waiting (id : string) (defaultSleep ticker : Duration).

Record Process := {
  proc_state : State W;
  proc_policyMonitors : gmap string CancelFunc;
  proc_monitors : gmap nat MonitorState;
  proc_ctx_done : bool
}.

Inductive Status :=
| Looping (p : Process)
| Exited (r : option error) (s : State W)
| Crashed (msg : string).

Inductive Step :=
| CancelRun
| RunReceives (r : RunSelect)
| MonitorStarts (ctx : nat)
| MonitorReceives (ctx : nat) (r : MonitorSelect).

(** Cancelling the context of [Run] cancels the contexts made from it. *)
Definition cancel_children (s : State W) : State W :=
  {| world := world s; config := config s; ctx_next := ctx_next s;
     ctx_cancelled := list_to_set (seq 0 (ctx_next s)) ∪ ctx_cancelled s;
     goroutines := goroutines s |}.

(** The goroutines of [new] exist and have not run yet. *)
Definition start_goroutines (new : list (nat * string)) (monitors : gmap nat MonitorState)
  : gmap nat MonitorState :=
  foldl (fun ms g => <[ fst g := Started (snd g) ]> ms) monitors new.

Definition is_RunCtxDone (r : RunSelect) : bool :=
  match r with RunCtxDone => true | _ => false end.

Definition is_CtxDone (r : MonitorSelect) : bool :=
  match r with CtxDone => true | TickerC => false end.

(** One step of the process. A step that cannot happen changes nothing:
    [Run] and a monitor receive that their context is done only once it is,
    a monitor starts once, and only a monitor in its loop receives. *)
Definition step (p : Process) (x : Step) : Status * list (Event Value) :=
  match x with
  | CancelRun =>
      (Looping {| proc_state := cancel_children (proc_state p);
                  proc_policyMonitors := proc_policyMonitors p;
                  proc_monitors := proc_monitors p;
                  proc_ctx_done := true |}, [])
  | RunReceives r =>
      if is_RunCtxDone r && negb (proc_ctx_done p) then (Looping p, [])
      else
        match RunLoop D (proc_policyMonitors p) [r] (proc_state p) with
        | (s1, t1, Ok (Blocked m1)) =>
            (Looping {| proc_state := if proc_ctx_done p then cancel_children s1 else s1;
                        proc_policyMonitors := m1;
                        proc_monitors :=
                          start_goroutines
                            (drop (length (goroutines (proc_state p))) (goroutines s1))
                            (proc_monitors p);
                        proc_ctx_done := proc_ctx_done p |}, t1)
        | (s1, t1, Ok (Returns r)) => (Exited r s1, t1)
        | (s1, t1, Panic msg) => (Crashed msg, t1)
        end
  | MonitorStarts ctx =>
      match proc_monitors p !! ctx with
      | Some (Started id) =>
          match monitorPolicy D id [] (proc_state p) with
          | (s1, t1, Ok (Blocked ticker)) =>
              (* the first ticker has the default period *)
              (Looping {| proc_state := s1;
                          proc_policyMonitors := proc_policyMonitors p;
                          proc_monitors := <[ ctx := Waiting id ticker ticker ]> (proc_monitors p);
                          proc_ctx_done := proc_ctx_done p |}, t1)
          | (s1, t1, Ok (Returns _)) =>
              (Looping {| proc_state := s1;
                          proc_policyMonitors := proc_policyMonitors p;
                          proc_monitors := delete ctx (proc_monitors p);
                          proc_ctx_done := proc_ctx_done p |}, t1)
          | (s1, t1, Panic msg) => (Crashed msg, t1)
          end
      | _ => (Looping p, [])
      end
  | MonitorReceives ctx r =>
      match proc_monitors p !! ctx with
      | Some (Waiting id defaultSleep ticker) =>
          if is_CtxDone r && negb (bool_decide (ctx ∈ ctx_cancelled (proc_state p)))
          then (Looping p, [])
          else
            match monitorLoop D id defaultSleep ticker [r] (proc_state p) with
            | (s1, t1, Ok (Blocked ticker')) =>
                (Looping {| proc_state := s1;
                            proc_policyMonitors := proc_policyMonitors p;
                            proc_monitors :=
                              <[ ctx := Waiting id defaultSleep ticker' ]> (proc_monitors p);
                            proc_ctx_done := proc_ctx_done p |}, t1)
            | (s1, t1, Ok (Returns _)) =>
                (Looping {| proc_state := s1;
                            proc_policyMonitors := proc_policyMonitors p;
                            proc_monitors := delete ctx (proc_monitors p);
                            proc_ctx_done := proc_ctx_done p |}, t1)
            | (s1, t1, Panic msg) => (Crashed msg, t1)
            end
      | _ => (Looping p, [])
      end
  end.

(** The steps of a schedule, as long as [Run] is in its loop and no
    goroutine has panicked. *)
Fixpoint run_steps (st : Status) (schedule : list Step) : Status * list (Event Value) :=
  match schedule with
  | [] => (st, [])
  | x :: rest =>
      match st with
      | Looping p =>
          let (st1, t1) := step p x in
          let (st2, t2) := run_steps st1 rest in
          (st2, t1 ++ t2)
      | _ => (st, [])
      end
  end.

(** The process: the start of [Run] up to its loop, then the schedule. *)
Definition process (schedule : list Step) (s : State W) : Status * list (Event Value) :=
  match Run D [] s with
  | (s1, t1, Ok (Blocked m)) =>
      let (st, t) :=
        run_steps (Looping {| proc_state := s1; proc_policyMonitors := m;
                              proc_monitors := ∅; proc_ctx_done := false |}) schedule in
      (st, t1 ++ t)
  | (s1, t1, Ok (Returns r)) => (Exited r s1, t1)
  | (s1, t1, Panic msg) => (Crashed msg, t1)
  end.


(** The policy IDs of the sets [Run] receives in the schedule. *)
Definition seen_in (schedule : list Step) : list string :=
  flat_map (fun x => match x with
                     | RunReceives (PoliciesCn policies) => map ID policies
                     | _ => []
                     end) schedule.

(** The default period of a monitor is one a ticker accepts. *)
Definition scan_interval_ok (cfg : AgentConfig) : Prop :=
  match time_ParseDuration D (ScanInterval cfg) with
  | inr d => 0 < d
  | inl _ => True
  end.



End Process.

Arguments Started : clear implicits.
Arguments Waiting : clear implicits.


(** The parts of the state that only [Run] and the load pass change. *)
Definition same_runtime {W} (s s1 : State W) : Prop :=
  config s1 = config s /\
  ctx_next s1 = ctx_next s /\
  ctx_cancelled s1 = ctx_cancelled s /\
  goroutines s1 = goroutines s.


End agent.


(** ** A concrete world

    Plugins and a policy storage simple enough to run the agent on. The
    world is the number of [Get] calls made so far; the storage answers the
    n-th call with the n-th entry of a script. *)

Module fixtures.
Import agent.
Local Open Scope go_scope.

Definition jobWeb : Cfg := <[ "job" := "web" ]> ∅.

(** A target that counts 2 for a configuration with a job, and refuses to
    scale above 10. *)
Definition exTarget : TargetPlugin nat :=
  {| tgt_SetConfig := fun _ w => (w, None);
     tgt_Count := fun cfg w =>
       (w, match cfg !! "job" with
           | Some _ => inr 2
           | None => inl "missing job"
           end);
     tgt_Scale := fun a _ w =>
       (w, if 10 <? Count a then Some "count above the maximum" else None) |}.

(** A metric source that answers 80 to any query but the empty one. *)
Definition exAPM : APM nat Z :=
  {| apm_SetConfig := fun _ w => (w, None);
     apm_Query := fun q w =>
       (w, if String.eqb q "" then inl "empty query" else inr 80) |}.

(** A strategy that always answers with [actions], unless the request has
    its bounds the wrong way round. *)
Definition exStrategy (actions : list Action) : StrategyPlugin nat Z :=
  {| str_SetConfig := fun _ w => (w, None);
     str_Run := fun req w =>
       (w, if MaxCount req <? MinCount req then inl "max below min"
           else inr {| Actions := actions |}) |}.

(** A manager that launches every driver but "missing" and dispenses the
    names in [known]. *)
Definition exManager {I : Type} (known : list string) (plugin : I) : Manager nat I :=
  {| RegisterPlugin := fun _ cc w =>
       (w, if String.eqb (cc_Cmd cc) "plugins/missing" then Some "executable not found"
           else None);
     Dispense := fun name w =>
       (w, if bool_decide (name ∈ known) then inr plugin else inl "plugin not registered");
     Kill := fun w => w |}.

Definition exParseDuration (s : string) : error + Duration :=
  if String.eqb s "10s" then inr (10 * Second)
  else if String.eqb s "0s" then inr 0
  else inl "invalid duration".

Definition exDeps (known : list string) (actions : list Action)
           (script : list (error + Policy)) (client : option error) : Deps nat Z :=
  {| apmManager := exManager known exAPM;
     targetManager := exManager known exTarget;
     strategyManager := exManager known (exStrategy actions);
     ps_Get := fun _ w => (S w, nth w script (inl "policy not found"));
     api_NewClient := fun _ _ w => (w, client);
     time_ParseDuration := exParseDuration;
     path_Join := fun dir file => dir +:+ "/" +:+ file |}.

Definition allKnown : list string := ["local-nomad"; "prometheus"; "target-value"].

(** The policy of the end-to-end example, with a given source and interval. *)
Definition examplePolicy (source : string) (interval : Duration) : Policy :=
  {| ID := "p1";
     Source := source;
     Query := "cpu";
     Target := {| target_Name := "local-nomad"; target_Config := jobWeb |};
     Strategy := {| strategy_Name := "target-value"; strategy_Min := 1; strategy_Max := 10;
                    strategy_Config := <[ "target" := "50" ]> ∅ |};
     Interval := interval |}.

Definition p1 : Policy := examplePolicy "local-nomad" 0.

(** A second policy, on the same target. *)
Definition p2 : Policy :=
  {| ID := "p2";
     Source := "prometheus";
     Query := "memory";
     Target := {| target_Name := "local-nomad"; target_Config := jobWeb |};
     Strategy := {| strategy_Name := "target-value"; strategy_Min := 2; strategy_Max := 20;
                    strategy_Config := <[ "target" := "70" ]> ∅ |};
     Interval := 30 * Second |}.

Definition scaleOut : Action := {| Count := 4; Reason := "scale out" |}.
Definition tooFar : Action := {| Count := 40; Reason := "scale far out" |}.

Definition exConfig : AgentConfig :=
  {| Nomad := {| Address := "http://127.0.0.1:4646"; Region := "global" |};
     APMs := [ {| Name := "prometheus"; Driver := "prometheus"; Config := ∅ |} ];
     Targets := [];
     Strategies := [ {| Name := "target-value"; Driver := "target-value"; Config := ∅ |} ];
     PluginDir := "plugins";
     ScanInterval := "10s" |}.

Definition initial (cfg : AgentConfig) : State nat :=
  {| world := 0%nat; config := cfg; ctx_next := 0%nat; ctx_cancelled := ∅; goroutines := [] |}.


End fixtures.


(** * Properties *)

Import agent.
Local Open Scope go_scope.

(** ** helper/blocking *)

(** C10. [FindMaxFound] is the maximum of its arguments; [IndexHasChange]
    holds exactly when the new index is greater than the old one, which is
    exactly when [FindMaxFound] differs from the old one. *)
Theorem C10_blocking_max_and_change (new old : Z) :
  blocking.FindMaxFound new old = Z.max new old /\
  (blocking.IndexHasChange new old = true <-> new > old) /\
  (blocking.IndexHasChange new old = true <-> blocking.FindMaxFound new old <> old).
Proof.
  unfold blocking.FindMaxFound, blocking.IndexHasChange.
  destruct (Z.leb_spec new old) as [Hle | Hgt].
  - repeat split; try lia; try discriminate; intros H; exfalso; lia || congruence.
  - repeat split; try lia; auto.
Qed.

(** Both functions stay within [uint64]. *)
Lemma FindMaxFound_uint64 (new old : Z) :
  blocking.uint64 new -> blocking.uint64 old -> blocking.uint64 (blocking.FindMaxFound new old).
Proof.
  unfold blocking.FindMaxFound. intros Hn Ho. destruct (new <=? old); assumption.
Qed.

Lemma FindMaxFound_fold (indexes : list Z) (old : Z) :
  let tracked := fold_left (fun old new => blocking.FindMaxFound new old) indexes old in
  old <= tracked /\
  (forall new, In new indexes -> new <= tracked) /\
  In tracked (old :: indexes).
Proof.
  revert old. induction indexes as [| index indexes IH]; intros old; simpl.
  - repeat split; [lia | tauto | left; reflexivity].
  - destruct (IH (blocking.FindMaxFound index old)) as (Hle & Hall & Hin).
    assert (Hmax : old <= blocking.FindMaxFound index old /\
                   index <= blocking.FindMaxFound index old /\
                   (blocking.FindMaxFound index old = old \/
                    blocking.FindMaxFound index old = index)).
    { unfold blocking.FindMaxFound. destruct (Z.leb_spec index old); lia. }
    destruct Hmax as (Hold & Hindex & Hcases).
    split; [lia |]. split.
    + intros new [<- | Hnew]; [lia | exact (Hall new Hnew)].
    + destruct Hin as [Hin | Hin]; [| right; right; exact Hin].
      destruct Hcases as [Hc | Hc]; [left | right; left];
        exact (eq_trans (eq_sym Hc) Hin).
Qed.

(** X1. Tracking a sequence of indexes with [FindMaxFound], starting from
    a tracked value, ends on the starting value or on one of the indexes;
    against the result, [IndexHasChange] reports no change for the
    starting value nor for any index of the sequence, and reports a change
    for exactly the indexes greater than all of them. *)
Theorem FindMaxFound_tracks_the_highest_index (indexes : list Z) (old : Z) :
  In (fold_left (fun old new => blocking.FindMaxFound new old) indexes old) (old :: indexes) /\
  blocking.IndexHasChange
    old (fold_left (fun old new => blocking.FindMaxFound new old) indexes old) = false /\
  (forall new,
      In new indexes ->
      blocking.IndexHasChange
        new (fold_left (fun old new => blocking.FindMaxFound new old) indexes old) = false) /\
  (forall next,
      blocking.IndexHasChange
        next (fold_left (fun old new => blocking.FindMaxFound new old) indexes old) = true
      <-> old < next /\ forall new, In new indexes -> new < next).
Proof.
  destruct (FindMaxFound_fold indexes old) as (Hle & Hall & Hin).
  set (tracked := fold_left (fun old new => blocking.FindMaxFound new old) indexes old) in *.
  assert (Hchange : forall x, blocking.IndexHasChange x tracked = true <-> tracked < x).
  { intros x. unfold blocking.IndexHasChange. destruct (Z.leb_spec x tracked); split; try lia;
      discriminate || reflexivity. }
  assert (Hsame : forall x, x <= tracked -> blocking.IndexHasChange x tracked = false).
  { intros x Hx. destruct (blocking.IndexHasChange x tracked) eqn:E; [| reflexivity].
    apply Hchange in E. lia. }
  split; [exact Hin |]. split; [exact (Hsame old Hle) |].
  split; [intros new Hnew; exact (Hsame new (Hall new Hnew)) |].
  intros next. rewrite Hchange. split.
  - intros Hlt. split; [lia |]. intros new Hnew. specialize (Hall new Hnew). lia.
  - intros [Hold Hnews]. destruct Hin as [<- | Hin]; [exact Hold | exact (Hnews _ Hin)].
Qed.

(** ** The agent, for any plugins, policy storage and world *)

Section Properties.
Context {W Value : Type}.
Variable D : Deps W Value.

(** Unfolds the steps of the monad down to the calls that leave the agent. *)
Ltac unfold_steps :=
  unfold bind, call, call_err, call_void, logger_Info, logger_Error, ret,
    get_config, set_config, ticker_Stop, after, trace_of, result_of, state_of;
  simpl.

(** Cases on the next call that leaves the agent. *)
Tactic Notation "next_call" "as" simple_intropattern(pat) :=
  match goal with
  | |- context [let (_, _) := ?x in _] =>
      match type of x with
      | (W * _)%type =>
          let w := fresh "w" in
          let r := fresh "r" in
          let E := fresh "E" in
          destruct x as [w r] eqn:E; destruct r as pat; simpl
      end
  end.

(** *** The evaluation cycle *)

Lemma scaleTarget_trace (target : TargetPlugin W) (p : Policy) (actions : list Action)
      (s : State W) :
  exists done failure,
    scale_end actions done failure /\
    trace_of (scaleTarget (Value:=Value) target p actions s)
    = scale_trace (target_Config (Target p)) done failure /\
    result_of (scaleTarget (Value:=Value) target p actions s) = Ok tt.
Proof.
  revert s. induction actions as [| a actions IH]; intros s.
  - exists [], None. repeat split.
  - simpl. unfold_steps. next_call as [e |].
    + exists [], (Some (a, e)). repeat split. exists actions. reflexivity.
    + match goal with
      | |- context [scaleTarget target p actions ?s'] =>
          destruct (IH s') as (done & failure & Hend & Htr & Hres)
      end.
      unfold trace_of, result_of in Htr, Hres.
      destruct (scaleTarget target p actions _) as [[s2 t2] r2]; simpl in *.
      subst t2 r2.
      exists (a :: done), failure. repeat split.
      destruct failure as [[a' e'] |]; simpl in *.
      * destruct Hend as [rest ->]. exists rest. reflexivity.
      * congruence.
Qed.

(** Every cycle leaves one of the traces of [cycle_trace] and returns. *)
Lemma handlePolicy_cycle (p : Policy) (s : State W) :
  exists c,
    cycle_end_ok c /\
    trace_of (handlePolicy D p s) = cycle_trace p c /\
    result_of (handlePolicy D p s) = Ok tt.
Proof.
  unfold handlePolicy. unfold_steps.
  next_call as [e | target]; [exists (EndTarget e); repeat split |].
  next_call as [e | apm]; [exists (EndAPM e); repeat split |].
  next_call as [e | strategy]; [exists (EndStrategy e); repeat split |].
  next_call as [e | count]; [exists (EndCount e); repeat split |].
  next_call as [e | value]; [exists (EndQuery count e); repeat split |].
  next_call as [e | results]; [exists (EndRun count value e); repeat split |].
  destruct (Actions results) as [| action actions] eqn:Hactions.
  - exists (EndNothing count value). repeat split.
  - match goal with
    | |- context [scaleTarget ?t p (action :: actions) ?s'] =>
        destruct (scaleTarget_trace t p (action :: actions) s')
          as (done & failure & Hend & Htr & Hres);
        unfold trace_of, result_of in Htr, Hres;
        destruct (scaleTarget t p (action :: actions) s') as [[s2 t2] r2]
    end.
    simpl in *. subst t2 r2.
    exists (EndScaled count value (action :: actions) done failure).
    repeat split; [discriminate | assumption].
Qed.


Lemma scale_calls_scaled (cfg : Cfg) (done : list Action) :
  scale_calls (Value:=Value) (flat_map (scaled cfg) done)
  = map (fun a => (a, cfg, RNil)) done.
Proof.
  induction done as [| a done IH]; [reflexivity |].
  cbn [flat_map map]. unfold scale_calls in *. rewrite omap_app, IH. reflexivity.
Qed.

Lemma scaled_calls_succeed (cfg : Cfg) (done : list Action) (c : Call Value) (err : error) :
  ~ In (ECall c (RErr err)) (flat_map (scaled cfg) done).
Proof.
  induction done as [| a done IH]; simpl; [tauto |].
  intros [H | [H | H]]; [discriminate | discriminate | tauto].
Qed.

Lemma scaled_has_no_run (cfg : Cfg) (done : list Action) (failure : option (Action * error))
      (req : RunRequest Value) (r : Returned Value) :
  ~ In (ECall (CRun req) r) (scale_trace cfg done failure).
Proof.
  unfold scale_trace. rewrite in_app_iff. intros [H | H].
  - induction done as [| a done IH]; simpl in H; [tauto |].
    destruct H as [H | [H | H]]; [discriminate | discriminate | tauto].
  - destruct failure as [[a e] |]; simpl in H; [| tauto].
    destruct H as [H | [H | [H | H]]]; [discriminate | discriminate | discriminate | tauto].
Qed.


(** A failed call of an end of a cycle is followed by the log of its error,
    which ends the trace. *)
Lemma cycle_trace_failure (p : Policy) (c : CycleEnd) (call : Call Value) (err : error) :
  In (ECall call (RErr err)) (cycle_trace p c) ->
  exists pre msg, cycle_trace p c = pre ++ [ECall call (RErr err); ELog Error msg (Some err)].
Proof.
  destruct c as [e | e | e | e | count e | count value e | count value
                 | count value actions done failure]; simpl; intros H;
    repeat (destruct H as [H | H]; [try discriminate |]); try tauto.
  - injection H as <- <-. exists []. eexists. reflexivity.
  - injection H as <- <-. eexists [_]. eexists. reflexivity.
  - injection H as <- <-. eexists [_; _]. eexists. reflexivity.
  - injection H as <- <-. eexists [_; _; _; _]. eexists. reflexivity.
  - injection H as <- <-. eexists [_; _; _; _; _; _]. eexists. reflexivity.
  - injection H as <- <-. eexists [_; _; _; _; _; _; _; _]. eexists. reflexivity.
  - unfold scale_trace in *. apply in_app_iff in H as [H | H].
    + exfalso. exact (scaled_calls_succeed _ _ _ _ H).
    + destruct failure as [[a e] |]; simpl in H; [| tauto].
      destruct H as [H | [H | [H | H]]]; try discriminate; try tauto.
      injection H as <- <-.
      exists (dispense_trace p ++ count_trace p (RCount count)
              ++ query_trace p (RValue value)
              ++ run_trace p count value (RActions actions)
              ++ flat_map (scaled (target_Config (Target p))) done
              ++ [ELog Info "scaling target" None]).
      eexists. simpl. do 9 f_equal. rewrite <- app_assoc. reflexivity.
Qed.

(** The end of a cycle whose trace shows what [Run] returned. *)
Lemma cycle_trace_ran (p : Policy) (c : CycleEnd) (req : RunRequest Value)
      (actions : list Action) :
  cycle_end_ok c ->
  In (ECall (CRun req) (RActions actions)) (cycle_trace p c) ->
  (actions = [] /\ exists count value, c = EndNothing count value)
  \/ (actions <> [] /\ exists count value done failure,
        c = EndScaled count value actions done failure /\ scale_end actions done failure).
Proof.
  intros Hok H.
  destruct c as [e | e | e | e | count e | count value e | count value
                 | count value actions' done failure]; simpl in H;
    repeat (destruct H as [H | H]; [try discriminate |]); try tauto.
  - injection H as _ <-. left. eauto.
  - injection H as _ <-. right. destruct Hok as [Hne Hend]. eauto 10.
  - exfalso. exact (scaled_has_no_run _ _ _ _ _ H).
Qed.




(** C5. Once [Run] has returned its actions, the Scale calls of the cycle
    are these actions in order, each with the configuration of the policy's
    target: all of them when every call succeeds; otherwise those up to the
    first call that fails, after which the failure is logged and the cycle
    ends, with no call for the remaining actions. *)
Theorem C5_scale_in_order_until_failure (p : Policy) (s : State W)
        (req : RunRequest Value) (actions : list Action) :
  In (ECall (CRun req) (RActions actions)) (trace_of (handlePolicy D p s)) ->
  scale_calls (trace_of (handlePolicy D p s))
  = map (fun a => (a, target_Config (Target p), RNil)) actions
  \/ exists done a rest e,
      actions = done ++ a :: rest /\
      scale_calls (trace_of (handlePolicy D p s))
      = map (fun a => (a, target_Config (Target p), RNil)) done
        ++ [(a, target_Config (Target p), RErr e)] /\
      last (trace_of (handlePolicy D p s))
      = Some (ELog Error "failed to scale target" (Some e)).
Proof.
  destruct (handlePolicy_cycle p s) as (c & Hok & -> & _). intros Hin.
  destruct (cycle_trace_ran p c req actions Hok Hin)
    as [[-> (count & value & ->)] | [_ (count & value & done & failure & -> & Hend)]].
  - left. reflexivity.
  - assert (Hcalls :
      scale_calls (cycle_trace p (EndScaled count value actions done failure))
      = map (fun a => (a, target_Config (Target p), RNil)) done
        ++ scale_calls (scale_failure (Value:=Value) (target_Config (Target p)) failure)).
    { pose proof (scale_calls_scaled (target_Config (Target p)) done) as Hdone.
      unfold cycle_trace, scale_trace, scale_calls in *.
      rewrite !omap_app, Hdone. reflexivity. }
    rewrite Hcalls.
    destruct failure as [[a e] |]; simpl in Hend.
    + right. destruct Hend as [rest ->]. exists done, a, rest, e.
      repeat split.
      unfold cycle_trace, scale_trace.
      change (scale_failure (target_Config (Target p)) (Some (a, e)))
        with ([ELog Info "scaling target" None;
               ECall (Value:=Value) (CScale a (target_Config (Target p))) (RErr e)]
              ++ [ELog Error "failed to scale target" (Some e)]).
      rewrite !app_assoc. apply last_snoc.
    + left. subst done. simpl. apply app_nil_r.
Qed.

(** C6. A cycle in which [Run] succeeds with no action makes no Scale call,
    logs "nothing to do" at level Info right after [Run], logs nothing at
    level Error, and returns. *)
Theorem C6_no_action_is_a_no_op (p : Policy) (s : State W) (req : RunRequest Value) :
  In (ECall (CRun req) (RActions [])) (trace_of (handlePolicy D p s)) ->
  scale_calls (trace_of (handlePolicy D p s)) = [] /\
  (exists pre,
      trace_of (handlePolicy D p s)
      = pre ++ [ECall (CRun req) (RActions []); ELog Info "nothing to do" None]) /\
  existsb is_error_log (trace_of (handlePolicy D p s)) = false /\
  result_of (handlePolicy D p s) = Ok tt.
Proof.
  destruct (handlePolicy_cycle p s) as (c & Hok & -> & ->). intros Hin.
  destruct (cycle_trace_ran p c req [] Hok Hin)
    as [[_ (count & value & ->)] | [Hne _]]; [| congruence].
  simpl in Hin.
  repeat (destruct Hin as [Hin | Hin]; [try discriminate |]); try tauto.
  injection Hin as <-.
  repeat split. eexists [_; _; _; _; _; _; _; _]. reflexivity.
Qed.

(** *** The policy monitor *)

(** A tick whose fetch succeeds, when the new ticker can be made: stop the
    ticker, make the new one, evaluate, and go on with the loop. *)
Lemma monitorLoop_fetched (id : string) (defaultSleep ticker : Duration)
      (rest : list MonitorSelect) (s : State W) (w : W) (p : Policy) :
  ps_Get D id (world s) = (w, inr p) ->
  0 < sleepDuration defaultSleep p ->
  monitorLoop D id defaultSleep ticker (TickerC :: rest) s
  = after ([ECall (CGet id) (RPolicy p);
            ECall (CTickerStop ticker) RNil;
            ECall (CNewTicker (sleepDuration defaultSleep p)) RNil]
           ++ trace_of (handlePolicy D p (with_world s w)))
          (monitorLoop D id defaultSleep (sleepDuration defaultSleep p) rest
                       (state_of (handlePolicy D p (with_world s w)))).
Proof.
  intros Hget Hpos. unfold sleepDuration in *.
  cbn [monitorLoop]. unfold_steps. rewrite Hget. simpl.
  unfold time_NewTicker.
  match goal with
  | |- context [if ?b then panic _ else _] => destruct b eqn:Hle
  end;
    [apply Z.leb_le in Hle; exfalso; exact (Z.lt_irrefl _ (Z.lt_le_trans _ _ _ Hpos Hle)) |].
  destruct (handlePolicy_cycle p (with_world s w)) as (c & _ & _ & Hres).
  unfold result_of in Hres.
  destruct (handlePolicy D p (with_world s w)) as [[s2 t2] r2]. simpl in *. subst r2.
  destruct (monitorLoop D id defaultSleep _ rest s2) as [[s3 t3] r3]. simpl.
  rewrite <- ?app_assoc. reflexivity.
Qed.

(** A tick starts by fetching the policy. *)
Lemma monitorLoop_tick_fetches (id : string) (defaultSleep ticker : Duration)
      (rest : list MonitorSelect) (s : State W) :
  exists r tl,
    trace_of (monitorLoop D id defaultSleep ticker (TickerC :: rest) s)
    = ECall (CGet id) r :: tl.
Proof.
  cbn [monitorLoop]. unfold bind at 1. unfold call.
  destruct (ps_Get D id (world s)) as [w r].
  match goal with
  | |- context [let (_, _) := ?o in _] => destruct o as [[s1 t1] [x | msg]]
  end; eexists; eexists; reflexivity.
Qed.

(** A tick whose fetch fails: log the error and go on with the loop, with
    the same ticker. *)
Lemma monitorLoop_fetch_failed (id : string) (defaultSleep ticker : Duration)
      (rest : list MonitorSelect) (s : State W) (w : W) (e : error) :
  ps_Get D id (world s) = (w, inl e) ->
  monitorLoop D id defaultSleep ticker (TickerC :: rest) s
  = after [ECall (CGet id) (RErr e); ELog Error "failed to fetch policy" (Some e)]
          (monitorLoop D id defaultSleep ticker rest (with_world s w)).
Proof.
  intros Hget. cbn [monitorLoop]. unfold_steps. rewrite Hget. simpl.
  destruct (monitorLoop D id defaultSleep ticker rest (with_world s w)) as [[s3 t3] r3].
  reflexivity.
Qed.

(** C4. For every policy, the evaluation returns to its caller without a
    panic and with nothing to return, and any call of the cycle that failed
    (dispense, Count, Query, Run or Scale) is followed by one line of the
    log at level Error carrying its error, which ends the cycle. In the
    monitor, on a tick whose fetch succeeded, whatever the cycle did, the
    loop goes on with what its select receives next, and a next tick
    fetches the policy again. *)
Theorem C4_stage_failure_is_isolated (id : string) (defaultSleep ticker : Duration)
        (rest : list MonitorSelect) (s : State W) (w : W) (p : Policy) :
  ps_Get D id (world s) = (w, inr p) ->
  0 < sleepDuration defaultSleep p ->
  (forall (p' : Policy) (s' : State W), result_of (handlePolicy D p' s') = Ok tt) /\
  (forall (p' : Policy) (s' : State W) (c : Call Value) (err : error),
      In (ECall c (RErr err)) (trace_of (handlePolicy D p' s')) ->
      exists pre msg,
        trace_of (handlePolicy D p' s')
        = pre ++ [ECall c (RErr err); ELog Error msg (Some err)]) /\
  monitorLoop D id defaultSleep ticker (TickerC :: rest) s
  = after ([ECall (CGet id) (RPolicy p);
            ECall (CTickerStop ticker) RNil;
            ECall (CNewTicker (sleepDuration defaultSleep p)) RNil]
           ++ trace_of (handlePolicy D p (with_world s w)))
          (monitorLoop D id defaultSleep (sleepDuration defaultSleep p) rest
                       (state_of (handlePolicy D p (with_world s w)))) /\
  (forall rest', rest = TickerC :: rest' ->
     exists r tl,
       trace_of (monitorLoop D id defaultSleep (sleepDuration defaultSleep p) rest
                             (state_of (handlePolicy D p (with_world s w))))
       = ECall (CGet id) r :: tl).
Proof.
  intros Hget Hpos. split; [| split; [| split]].
  - intros p' s'. destruct (handlePolicy_cycle p' s') as (c & _ & _ & Hres). exact Hres.
  - intros p' s' call err. destruct (handlePolicy_cycle p' s') as (c & _ & -> & _).
    apply cycle_trace_failure.
  - apply monitorLoop_fetched; assumption.
  - intros rest' ->. apply monitorLoop_tick_fetches.
Qed.

(** C7 (for the intervals a ticker accepts). On a tick whose fetch succeeds
    with a policy whose Interval is not negative, the monitor waits next
    with the Interval of the fetched policy when it is positive and with
    the default when it is zero, and goes on in the same loop. *)
Theorem C7_next_wait_uses_fetched_interval (id : string) (defaultSleep ticker : Duration)
        (rest : list MonitorSelect) (s : State W) (w : W) (p : Policy) :
  ps_Get D id (world s) = (w, inr p) ->
  0 < defaultSleep ->
  0 <= Interval p ->
  result_of (monitorLoop D id defaultSleep ticker [TickerC] s)
  = Ok (Blocked (if Interval p =? 0 then defaultSleep else Interval p)) /\
  monitorLoop D id defaultSleep ticker (TickerC :: rest) s
  = after ([ECall (CGet id) (RPolicy p);
            ECall (CTickerStop ticker) RNil;
            ECall (CNewTicker (if Interval p =? 0 then defaultSleep else Interval p)) RNil]
           ++ trace_of (handlePolicy D p (with_world s w)))
          (monitorLoop D id defaultSleep
                       (if Interval p =? 0 then defaultSleep else Interval p) rest
                       (state_of (handlePolicy D p (with_world s w)))).
Proof.
  intros Hget Hdefault Hinterval.
  assert (Hpos : 0 < sleepDuration defaultSleep p).
  { unfold sleepDuration. destruct (Z.eqb_spec (Interval p) 0); lia. }
  split.
  - rewrite (monitorLoop_fetched id defaultSleep ticker [] s w p Hget Hpos). reflexivity.
  - exact (monitorLoop_fetched id defaultSleep ticker rest s w p Hget Hpos).
Qed.

(** C8. On a tick whose fetch fails, the monitor logs the error, makes no
    other call (no evaluation, no new ticker), and goes on in the same loop
    with the ticker it had. *)
Theorem C8_failed_fetch_skips_the_cycle (id : string) (defaultSleep ticker : Duration)
        (rest : list MonitorSelect) (s : State W) (w : W) (e : error) :
  ps_Get D id (world s) = (w, inl e) ->
  monitorLoop D id defaultSleep ticker (TickerC :: rest) s
  = after [ECall (CGet id) (RErr e); ELog Error "failed to fetch policy" (Some e)]
          (monitorLoop D id defaultSleep ticker rest (with_world s w)) /\
  result_of (monitorLoop D id defaultSleep ticker [TickerC] s) = Ok (Blocked ticker).
Proof.
  intros Hget. split.
  - apply monitorLoop_fetch_failed. exact Hget.
  - rewrite (monitorLoop_fetch_failed id defaultSleep ticker [] s w e Hget). reflexivity.
Qed.

(** *** The plugin load pass *)

Lemma clean_cons_load_failed (ev : Event Value) (tr : list (Event Value)) (e : error) :
  failed_startup ev = false -> load_failed tr e -> load_failed (ev :: tr) e.
Proof.
  intros Hev (pre & c & -> & Hc & Herr & Hpre).
  exists (ev :: pre), c. repeat split; try assumption. constructor; assumption.
Qed.

Lemma clean_app_load_failed (tr1 tr2 : list (Event Value)) (e : error) :
  clean tr1 -> load_failed tr2 e -> load_failed (tr1 ++ tr2) e.
Proof.
  intros H1 (pre & c & -> & Hc & Herr & Hpre).
  exists (tr1 ++ pre), c. rewrite app_assoc. repeat split; try assumption.
  apply Forall_app. split; assumption.
Qed.

(** One loop of the load pass: it returns, leaves the configuration as it
    was, and either registers all the blocks in order with no failed call,
    or ends on the first call that failed and returns its error. *)
Lemma loadBlocks_run {I : Type} (k : Kind) (key what : string) (mgr : Manager W I)
      (setConfig : I -> Cfg -> W -> W * option error) (dir : string)
      (blocks : list PluginBlock) (s : State W) :
  exists s1 t1 r,
    loadBlocks D k key what mgr setConfig dir blocks s = (s1, t1, Ok r) /\
    config s1 = config s /\
    match r with
    | None =>
        clean t1 /\
        forall k', registered k' t1 = if decide (k' = k) then names blocks else []
    | Some e => load_failed t1 e
    end.
Proof.
  revert s. induction blocks as [| block blocks IH]; intros s.
  - exists s, [], None. repeat split; [constructor |].
    intros k'. destruct (decide (k' = k)); reflexivity.
  - cbn [loadBlocks]. unfold_steps.
    next_call as [e |].
    { eexists _, _, (Some e). repeat split.
      eexists [_], _. repeat split. repeat constructor. }
    next_call as [e | plugin].
    { eexists _, _, (Some e). repeat split.
      eexists [_; _], _. repeat split. repeat constructor. }
    next_call as [e |].
    { eexists _, _, (Some e). repeat split.
      eexists [_; _; _], _. repeat split. repeat constructor. }
    match goal with
    | |- context [loadBlocks D k key what mgr setConfig dir blocks ?s'] =>
        destruct (IH s') as (s1 & t1 & r & -> & Hcfg & Hr)
    end.
    exists s1, ([ELog Info what None;
                 ECall (CRegisterPlugin k (Name block)
                          {| cc_HandshakeConfig := PluginHandshakeConfig;
                             cc_Plugins := key;
                             cc_Cmd := path_Join D dir (Driver block) |}) RNil;
                 ECall (CDispense k (Name block)) RPlugin;
                 ECall (CSetConfig k (Name block) (Config block)) RNil] ++ t1), r.
    repeat split; [exact Hcfg |].
    destruct r as [e |].
    + apply clean_app_load_failed; [repeat constructor | exact Hr].
    + destruct Hr as [Hclean Hreg]. split.
      * apply Forall_app. split; [repeat constructor | exact Hclean].
      * intros k'. unfold registered in *. rewrite omap_app, Hreg.
        cbn. destruct (decide (k' = k)); reflexivity.
Qed.

(** The whole load pass: it returns; with no error it has registered, in
    order, the configured metric sources and then "local-nomad", the
    configured targets and then "local-nomad", and the configured
    strategies; with an error it ended on the first call that failed. *)
Lemma loadPlugins_run (s : State W) :
  exists s1 t1 r,
    loadPlugins D s = (s1, t1, Ok r) /\
    match r with
    | None =>
        clean t1 /\
        registered KAPM t1 = names (APMs (config s)) ++ ["local-nomad"] /\
        registered KTarget t1 = names (Targets (config s)) ++ ["local-nomad"] /\
        registered KStrategy t1 = names (Strategies (config s))
    | Some e => load_failed t1 e
    end.
Proof.
  unfold loadPlugins, loadAPMPlugins, loadTargetPlugins, loadStrategyPlugins.
  unfold_steps.
  match goal with
  | |- context [loadBlocks D ?k ?key ?what ?mgr ?sc ?dir ?blocks ?s'] =>
      destruct (loadBlocks_run k key what mgr sc dir blocks s')
        as (s1 & t1 & r1 & -> & Hcfg1 & Hr1)
  end.
  simpl in Hcfg1.
  destruct r1 as [e |]; simpl;
    [rewrite ?app_nil_r; exists s1, t1, (Some e); split; [reflexivity | exact Hr1] |].
  rewrite Hcfg1. simpl.
  match goal with
  | |- context [loadBlocks D ?k ?key ?what ?mgr ?sc ?dir ?blocks ?s'] =>
      destruct (loadBlocks_run k key what mgr sc dir blocks s')
        as (s2 & t2 & r2 & -> & Hcfg2 & Hr2)
  end.
  simpl in Hcfg2.
  destruct r2 as [e |]; simpl.
  { rewrite ?app_nil_r. exists s2, (t1 ++ t2), (Some e). split; [reflexivity |].
    apply clean_app_load_failed; [apply Hr1 | exact Hr2]. }
  rewrite Hcfg2. simpl.
  match goal with
  | |- context [loadBlocks D ?k ?key ?what ?mgr ?sc ?dir ?blocks ?s'] =>
      destruct (loadBlocks_run k key what mgr sc dir blocks s')
        as (s3 & t3 & r3 & -> & Hcfg3 & Hr3)
  end.
  destruct Hr1 as [Hclean1 Hreg1]. destruct Hr2 as [Hclean2 Hreg2].
  destruct r3 as [e |]; simpl.
  { rewrite ?app_nil_r. exists s3, (t1 ++ t2 ++ t3), (Some e). split; [reflexivity |].
    apply clean_app_load_failed; [exact Hclean1 |].
    apply clean_app_load_failed; [exact Hclean2 | exact Hr3]. }
  destruct Hr3 as [Hclean3 Hreg3].
  rewrite ?app_nil_r. exists s3, (t1 ++ t2 ++ t3), None. split; [reflexivity |].
  split; [repeat (apply Forall_app; split); assumption |].
  unfold registered in *. rewrite !omap_app, !Hreg1, !Hreg2, !Hreg3.
  unfold names. rewrite !map_app. simpl. rewrite !app_nil_r. repeat split.
Qed.


(** *** The supervisor *)

Lemma startMonitors_run (policies : list Policy) (policyMonitors : gmap string CancelFunc)
      (s : State W) :
  exists s1 t1 m,
    startMonitors (Value:=Value) policies policyMonitors s = (s1, t1, Ok m) /\ clean t1.
Proof.
  revert policyMonitors s. induction policies as [| p policies IH]; intros m s.
  - exists s, [], m. split; [reflexivity | constructor].
  - cbn [startMonitors]. destruct (m !! ID p) as [cancel |]; [apply IH |].
    unfold bind, context_WithCancel, go_monitorPolicy. simpl.
    match goal with
    | |- context [startMonitors policies ?m' ?s'] =>
        destruct (IH m' s') as (s1 & t1 & m1 & -> & Hclean)
    end.
    eexists _, _, _. split; [reflexivity |]. constructor; [reflexivity | exact Hclean].
Qed.

Lemma cancelOld_run (policies : list Policy) (entries : list (string * CancelFunc))
      (s : State W) :
  exists s1 t1,
    cancelOld (Value:=Value) policies entries s = (s1, t1, Ok tt) /\ clean t1.
Proof.
  revert s. induction entries as [| [id cancel] entries IH]; intros s.
  - exists s, []. split; [reflexivity | constructor].
  - cbn [cancelOld]. unfold bind.
    destruct (found id policies); unfold ret, call_cancel; simpl;
      match goal with
      | |- context [cancelOld policies entries ?s'] =>
          destruct (IH s') as (s1 & t1 & -> & Hclean)
      end;
      eexists _, _; (split; [reflexivity |]);
      [exact Hclean | constructor; [reflexivity | exact Hclean]].
Qed.

Lemma stopMonitors_run (entries : list (string * CancelFunc)) (s : State W) :
  exists s1 t1,
    stopMonitors (Value:=Value) entries s = (s1, t1, Ok tt) /\ clean t1.
Proof.
  revert s. induction entries as [| [id cancel] entries IH]; intros s.
  - exists s, []. split; [reflexivity | constructor].
  - cbn [stopMonitors]. unfold bind, go_cancel. simpl.
    match goal with
    | |- context [stopMonitors entries ?s'] =>
        destruct (IH s') as (s1 & t1 & -> & Hclean)
    end.
    eexists _, _. split; [reflexivity |]. constructor; [reflexivity | exact Hclean].
Qed.

(** The loop of [Run] never panics and makes no call of the start; it
    returns nil when it receives the cancellation of its context, and is
    blocked in its select as long as it has not. *)
Lemma RunLoop_run (sel : list RunSelect) (policyMonitors : gmap string CancelFunc)
      (s : State W) :
  exists s1 t1 out,
    RunLoop D policyMonitors sel s = (s1, t1, Ok out) /\
    clean t1 /\
    if has_done sel then out = Returns None else exists m, out = Blocked m.
Proof.
  revert policyMonitors s.
  induction sel as [| [policies | err |] sel IH]; intros m s.
  - exists s, [], (Blocked m). repeat split; [constructor | simpl; eauto].
  - cbn [RunLoop]. unfold bind at 1 2. unfold logger_Info.
    destruct (startMonitors_run policies m s) as (s1 & t1 & m1 & -> & Hclean1).
    unfold bind at 1.
    destruct (cancelOld_run policies (map_to_list m1) s1) as (s2 & t2 & -> & Hclean2).
    destruct (IH m1 s2) as (s3 & t3 & out & -> & Hclean3 & Hout).
    eexists _, _, _. split; [reflexivity |]. split; [| exact Hout].
    constructor; [reflexivity |].
    repeat (apply Forall_app; split); assumption.
  - cbn [RunLoop]. unfold bind at 1. unfold logger_Error.
    destruct (IH m s) as (s3 & t3 & out & -> & Hclean3 & Hout).
    eexists _, _, _. split; [reflexivity |]. split; [| exact Hout].
    constructor; [reflexivity | assumption].
  - cbn [RunLoop]. unfold bind at 1.
    destruct (stopMonitors_run (map_to_list m) s) as (s1 & t1 & -> & Hclean1).
    unfold_steps.
    eexists _, _, _. split; [reflexivity |]. split; [| reflexivity].
    apply Forall_app. split; [exact Hclean1 | repeat constructor].
Qed.

(** The goroutine of [Run] by itself, its monitors left aside, never
    panics. When it returns an error, the last thing it
    did is a call of its start that failed (the construction of the client,
    or a register, dispense or SetConfig of the load pass), no call before
    it failed, and the error returned is the error of that call under the
    message of its step. When no call of the start fails, [Run] is blocked
    in its select as long as it has not received the cancellation of its
    context, whatever the policy sets and feed errors it received, and
    returns nil once it has. *)
Lemma Run_trace_ends_at_the_failed_startup_call (sel : list RunSelect) (s : State W) :
  match result_of (Run D sel s) with
  | Ok (Returns (Some msg)) =>
      exists pre c e,
        trace_of (Run D sel s) = pre ++ [ECall c (RErr e)] /\
        startup_call c = true /\
        msg = startup_error c e /\
        clean pre
  | Ok (Returns None) => has_done sel = true /\ clean (trace_of (Run D sel s))
  | Ok (Blocked _) => has_done sel = false /\ clean (trace_of (Run D sel s))
  | Panic _ => False
  end.
Proof.
  unfold Run, bind, get_config, call_err, trace_of, result_of. simpl.
  next_call as [e |].
  - exists [], (CNewClient (Region (Nomad (config s))) (Address (Nomad (config s)))), e.
    repeat split. constructor.
  - destruct (loadPlugins_run (with_world s w)) as (s1 & t1 & r & -> & Hr).
    destruct r as [e |].
    + simpl. destruct Hr as (pre & c & -> & Hc & Herr & Hpre).
      exists (ECall (CNewClient (Region (Nomad (config s))) (Address (Nomad (config s)))) RNil
              :: pre), c, e.
      repeat split;
        [rewrite app_nil_r; reflexivity | assumption | symmetry; assumption |].
      constructor; [reflexivity | assumption].
    + destruct Hr as [Hclean _].
      destruct (RunLoop_run sel ∅ s1) as (s2 & t2 & out & -> & Hclean2 & Hout).
      assert (Hall : clean (ECall (Value:=Value)
                              (CNewClient (Region (Nomad (config s)))
                                          (Address (Nomad (config s)))) RNil
                            :: t1 ++ t2)).
      { constructor; [reflexivity |]. apply Forall_app. split; assumption. }
      simpl. destruct (has_done sel).
      * subst out. split; [reflexivity | exact Hall].
      * destruct Hout as [m ->]. split; [reflexivity | exact Hall].
Qed.

(** The loop of [Run] never takes an entry out of [policyMonitors]. *)
Lemma startMonitors_keeps (policies : list Policy) (m m1 : gmap string CancelFunc)
      (s s1 : State W) (t1 : list (Event Value)) :
  startMonitors policies m s = (s1, t1, Ok m1) -> m ⊆ m1.
Proof.
  revert m s s1 t1. induction policies as [| p policies IH]; intros m s s1 t1.
  - intros [= _ _ ->]. reflexivity.
  - cbn [startMonitors]. destruct (m !! ID p) as [cancel |] eqn:Hlookup; [apply IH |].
    unfold bind, context_WithCancel, go_monitorPolicy. simpl.
    match goal with
    | |- context [startMonitors policies ?m' ?s'] =>
        destruct (startMonitors policies m' s') as [[s2 t2] [m2 | msg]] eqn:Hrest
    end; [| discriminate].
    intros [= _ _ ->]. apply IH in Hrest.
    etrans; [| exact Hrest]. apply insert_subseteq. exact Hlookup.
Qed.

Lemma RunLoop_keeps (sel : list RunSelect) (m m1 : gmap string CancelFunc)
      (s s1 : State W) (t1 : list (Event Value)) :
  RunLoop D m sel s = (s1, t1, Ok (Blocked m1)) -> m ⊆ m1.
Proof.
  revert m s s1 t1.
  induction sel as [| [policies | err |] sel IH]; intros m s s1 t1.
  - intros [= _ _ ->]. reflexivity.
  - cbn [RunLoop]. unfold bind at 1 2. unfold logger_Info.
    destruct (startMonitors_run policies m s) as (s2 & t2 & m2 & Hstart & _).
    rewrite Hstart. apply startMonitors_keeps in Hstart.
    unfold bind at 1.
    destruct (cancelOld_run policies (map_to_list m2) s2) as (s3 & t3 & -> & _).
    destruct (RunLoop D m2 sel s3) as [[s4 t4] r4] eqn:Hrest.
    intros [= _ _ ->]. apply IH in Hrest. etrans; eassumption.
  - cbn [RunLoop]. unfold bind at 1. unfold logger_Error.
    destruct (RunLoop D m sel s) as [[s4 t4] r4] eqn:Hrest.
    intros [= _ _ ->]. apply IH in Hrest. exact Hrest.
  - cbn [RunLoop]. unfold bind at 1.
    destruct (stopMonitors_run (map_to_list m) s) as (s2 & t2 & -> & _).
    unfold_steps. discriminate.
Qed.

(** [monitorPolicy] enters its loop with a positive default period, or
    panics when it makes its first ticker. *)
Lemma monitorPolicy_start (id : string) (sel : list MonitorSelect) (s : State W) :
  let defaultSleep :=
    match time_ParseDuration D (ScanInterval (config s)) with
    | inr d => d
    | inl _ => 5 * Second
    end in
  (defaultSleep <= 0 /\
   result_of (monitorPolicy D id sel s) = Panic "non-positive interval for NewTicker")
  \/ (0 < defaultSleep /\
      monitorPolicy D id sel s
      = after [ELog Info "start monitoring policy" None;
               ECall (CNewTicker defaultSleep) RNil]
              (monitorLoop D id defaultSleep defaultSleep sel s)).
Proof.
  intros defaultSleep. unfold monitorPolicy. unfold_steps. fold defaultSleep.
  unfold time_NewTicker. destruct (Z.leb_spec defaultSleep 0) as [Hle | Hlt].
  - left. split; [exact Hle | reflexivity].
  - right. split; [exact Hlt |].
    destruct (monitorLoop D id defaultSleep defaultSleep sel s) as [[s1 t1] r1].
    reflexivity.
Qed.

(** *** More on the evaluation cycle *)

Lemma In_scale_trace (cfg : Cfg) (done : list Action) (failure : option (Action * error))
      (ev : Event Value) :
  In ev (scale_trace cfg done failure) ->
  (exists lvl msg err, ev = ELog lvl msg err) \/ (exists a r, ev = ECall (CScale a cfg) r).
Proof.
  unfold scale_trace. rewrite in_app_iff. intros [H | H].
  - induction done as [| a done IH]; simpl in H; [tauto |].
    destruct H as [<- | [<- | H]]; eauto 6.
  - destruct failure as [[a e] |]; simpl in H; [| tauto].
    destruct H as [<- | [<- | [<- | H]]]; eauto 6. tauto.
Qed.

(** X5. The request a cycle passes to [Run] is built from what Count and
    Query returned in this cycle and from the bounds and the configuration
    of the policy's strategy. *)
Theorem handlePolicy_request_from_count_and_query (p : Policy) (s : State W)
        (req : RunRequest Value) (r : Returned Value) :
  In (ECall (CRun req) r) (trace_of (handlePolicy D p s)) ->
  exists count value,
    In (ECall (CCount (target_Config (Target p))) (RCount count))
       (trace_of (handlePolicy D p s)) /\
    In (ECall (CQuery (Query p)) (RValue value)) (trace_of (handlePolicy D p s)) /\
    req = {| CurrentCount := count;
             MinCount := strategy_Min (Strategy p);
             MaxCount := strategy_Max (Strategy p);
             CurrentValue := value;
             req_Config := strategy_Config (Strategy p) |}.
Proof.
  destruct (handlePolicy_cycle p s) as (c & _ & -> & _).
  destruct c as [e | e | e | e | count e | count value e | count value
                 | count value actions done failure]; simpl; intros H;
    repeat (destruct H as [H | H]; [try discriminate |]); try tauto.
  - injection H as <- _. exists count, value. repeat split; tauto.
  - injection H as <- _. exists count, value. repeat split; tauto.
  - injection H as <- _. exists count, value. repeat split; tauto.
  - apply In_scale_trace in H as [(lvl & msg & err & H) | (a & r' & H)]; discriminate.
Qed.

(** X6. Every call of a cycle is one of: the dispense of the policy's
    target, source or strategy by name, Count or Scale with the
    configuration of the policy's target, Query with the policy's query, or
    Run. A cycle registers, configures and kills no plugin, fetches no
    policy and touches no ticker or context. *)
Theorem handlePolicy_calls_follow_policy (p : Policy) (s : State W)
        (c : Call Value) (r : Returned Value) :
  In (ECall c r) (trace_of (handlePolicy D p s)) ->
  c = CDispense KTarget (target_Name (Target p)) \/
  c = CDispense KAPM (Source p) \/
  c = CDispense KStrategy (strategy_Name (Strategy p)) \/
  c = CCount (target_Config (Target p)) \/
  c = CQuery (Query p) \/
  (exists req, c = CRun req) \/
  (exists a, c = CScale a (target_Config (Target p))).
Proof.
  destruct (handlePolicy_cycle p s) as (e & _ & -> & _).
  destruct e as [e | e | e | e | count e | count value e | count value
                 | count value actions done failure]; simpl; intros H;
    repeat (destruct H as [H | H];
            [try discriminate; injection H as <- _; eauto 10 |]); try tauto.
  apply In_scale_trace in H as [(lvl & msg & err & H) | (a & r' & H)]; [discriminate |].
  injection H as -> _. eauto 10.
Qed.

(** *** More on the policy monitor *)

Lemma count_events_app (f : Event Value -> bool) (l1 l2 : list (Event Value)) :
  count_events f (l1 ++ l2) = (count_events f l1 + count_events f l2)%nat.
Proof. unfold count_events. rewrite List.filter_app. apply length_app. Qed.

Lemma scale_trace_quiet (cfg : Cfg) (done : list Action) (failure : option (Action * error)) :
  count_events (Value:=Value) is_get (scale_trace cfg done failure) = 0%nat /\
  count_events (Value:=Value) is_fetch_failure (scale_trace cfg done failure) = 0%nat /\
  count_events (Value:=Value) starts_cycle (scale_trace cfg done failure) = 0%nat /\
  fetched (Value:=Value) (scale_trace cfg done failure) = [].
Proof.
  unfold scale_trace, fetched. rewrite !count_events_app, omap_app.
  assert (Hdone :
    count_events (Value:=Value) is_get (flat_map (scaled cfg) done) = 0%nat /\
    count_events (Value:=Value) is_fetch_failure (flat_map (scaled cfg) done) = 0%nat /\
    count_events (Value:=Value) starts_cycle (flat_map (scaled cfg) done) = 0%nat /\
    omap (fetched_policy (Value:=Value)) (flat_map (scaled cfg) done) = []).
  { induction done as [| a done IH]; [repeat split |]. exact IH. }
  destruct Hdone as (-> & -> & -> & ->).
  destruct failure as [[a e] |]; repeat split.
Qed.

(** A cycle fetches no policy and dispenses the target once. *)
Lemma handlePolicy_quiet (p : Policy) (s : State W) :
  count_events is_get (trace_of (handlePolicy D p s)) = 0%nat /\
  count_events is_fetch_failure (trace_of (handlePolicy D p s)) = 0%nat /\
  count_events starts_cycle (trace_of (handlePolicy D p s)) = 1%nat /\
  fetched (trace_of (handlePolicy D p s)) = [].
Proof.
  destruct (handlePolicy_cycle p s) as (c & _ & -> & _).
  destruct c as [e | e | e | e | count e | count value e | count value
                 | count value actions done failure]; try (repeat split; fail).
  destruct (scale_trace_quiet (target_Config (Target p)) done failure)
    as (Hget & Hfail & Hstart & Hfetched).
  unfold cycle_trace, fetched in *.
  rewrite !count_events_app, !omap_app, Hget, Hfail, Hstart, Hfetched.
  repeat split.
Qed.

(** A tick whose fetch succeeds with a period no ticker accepts: the
    monitor panics. *)
Lemma monitorLoop_fetched_panics (id : string) (defaultSleep ticker : Duration)
      (rest : list MonitorSelect) (s : State W) (w : W) (p : Policy) :
  ps_Get D id (world s) = (w, inr p) ->
  sleepDuration defaultSleep p <= 0 ->
  result_of (monitorLoop D id defaultSleep ticker (TickerC :: rest) s)
  = Panic "non-positive interval for NewTicker".
Proof.
  intros Hget Hle. unfold sleepDuration in Hle.
  cbn [monitorLoop]. unfold_steps. rewrite Hget. simpl.
  unfold time_NewTicker.
  match goal with
  | |- context [if ?b then panic _ else _] => destruct b eqn:Hb
  end; [reflexivity |].
  apply Z.leb_gt in Hb. exfalso. exact (Z.lt_irrefl _ (Z.le_lt_trans _ _ _ Hle Hb)).
Qed.

(** X4. In a run of the monitor that does not panic, every tick received
    before the context is done fetches the policy once, and either logs
    that the fetch failed or starts one evaluation cycle; the monitor has
    returned exactly when it has received that its context is done, and
    what the select would deliver after that is not looked at. *)
Theorem monitorLoop_tick_accounting (id : string) (defaultSleep ticker : Duration)
        (sel : list MonitorSelect) (s : State W) (out : Outcome unit Duration) :
  result_of (monitorLoop D id defaultSleep ticker sel s) = Ok out ->
  count_events is_get (trace_of (monitorLoop D id defaultSleep ticker sel s)) = ticks sel /\
  (count_events is_fetch_failure (trace_of (monitorLoop D id defaultSleep ticker sel s))
   + count_events starts_cycle (trace_of (monitorLoop D id defaultSleep ticker sel s)))%nat
  = ticks sel /\
  match out with
  | Returns _ => monitor_done sel = true
  | Blocked _ => monitor_done sel = false
  end.
Proof.
  revert ticker s. induction sel as [| [|] sel IH]; intros ticker s.
  - intros [= <-]. repeat split.
  - intros [= <-]. repeat split.
  - destruct (ps_Get D id (world s)) as [w [e | p]] eqn:Hget.
    + rewrite (monitorLoop_fetch_failed id defaultSleep ticker sel s w e Hget).
      unfold after, result_of, trace_of. cbn [fst snd]. intros Hres.
      destruct (IH ticker (with_world s w) Hres) as (Hgets & Hcycles & Hout).
      unfold result_of, trace_of in *. rewrite !count_events_app, Hgets.
      split; [reflexivity |]. split; [| exact Hout].
      cbn [ticks]. rewrite <- Hcycles. unfold count_events. simpl. lia.
    + destruct (Z_le_gt_dec (sleepDuration defaultSleep p) 0) as [Hle | Hgt].
      { rewrite (monitorLoop_fetched_panics id defaultSleep ticker sel s w p Hget Hle).
        discriminate. }
      assert (Hpos : 0 < sleepDuration defaultSleep p) by lia.
      rewrite (monitorLoop_fetched id defaultSleep ticker sel s w p Hget Hpos).
      unfold after, result_of, trace_of. cbn [fst snd]. intros Hres.
      destruct (IH _ _ Hres) as (Hgets & Hcycles & Hout).
      destruct (handlePolicy_quiet p (with_world s w)) as (Hq1 & Hq2 & Hq3 & _).
      unfold result_of, trace_of in *.
      rewrite !count_events_app, Hgets, Hq1, Hq2, Hq3.
      split; [reflexivity |]. split; [| exact Hout].
      cbn [ticks]. rewrite <- Hcycles. unfold count_events. simpl. lia.
Qed.

Lemma last_cons_app {A : Type} (x : A) (l : list A) :
  last (x :: l) = match last l with Some y => Some y | None => Some x end.
Proof.
  revert x. induction l as [| y l IH]; intros x; [reflexivity |].
  change (last (x :: y :: l)) with (last (y :: l)). rewrite (IH y).
  destruct (last l); reflexivity.
Qed.

(** X3. In a run of the monitor that does not panic, the period of the
    ticker the monitor waits on is the one of the last policy it fetched
    with success (its Interval, or the default when that is zero), and the
    period it had at the start when no fetch has succeeded: a failed fetch
    changes nothing. *)
Theorem monitorLoop_period_of_last_fetched (id : string) (defaultSleep ticker : Duration)
        (sel : list MonitorSelect) (s : State W) (ticker' : Duration) :
  result_of (monitorLoop D id defaultSleep ticker sel s) = Ok (Blocked ticker') ->
  ticker' = match last (fetched (trace_of (monitorLoop D id defaultSleep ticker sel s))) with
            | Some p => sleepDuration defaultSleep p
            | None => ticker
            end.
Proof.
  revert ticker s. induction sel as [| [|] sel IH]; intros ticker s.
  - intros [= <-]. reflexivity.
  - discriminate.
  - destruct (ps_Get D id (world s)) as [w [e | p]] eqn:Hget.
    + rewrite (monitorLoop_fetch_failed id defaultSleep ticker sel s w e Hget).
      unfold after, result_of, trace_of. cbn [fst snd]. intros Hres.
      apply IH in Hres. exact Hres.
    + destruct (Z_le_gt_dec (sleepDuration defaultSleep p) 0) as [Hle | Hgt].
      { rewrite (monitorLoop_fetched_panics id defaultSleep ticker sel s w p Hget Hle).
        discriminate. }
      assert (Hpos : 0 < sleepDuration defaultSleep p) by lia.
      rewrite (monitorLoop_fetched id defaultSleep ticker sel s w p Hget Hpos).
      unfold after, result_of, trace_of. cbn [fst snd]. intros Hres.
      apply IH in Hres.
      destruct (handlePolicy_quiet p (with_world s w)) as (_ & _ & _ & Hq).
      unfold fetched, result_of, trace_of in *.
      rewrite <- app_assoc, !omap_app, Hq. cbn [omap list_omap fetched_policy app].
      change (list_omap _ _ fetched_policy) with (omap (fetched_policy (Value:=Value))).
      rewrite last_cons_app.
      destruct (last (omap fetched_policy _)); exact Hres.
Qed.

(** X2. How a monitor starts: when the ScanInterval of the configuration
    does not parse, the default period is 5 seconds; when it parses to a
    duration that is not positive, the monitor panics on its first ticker,
    before any fetch; otherwise the default period is the parsed one. *)
Theorem monitorPolicy_default_period (id : string) (sel : list MonitorSelect) (s : State W) :
  monitorPolicy D id sel s
  = match time_ParseDuration D (ScanInterval (config s)) with
    | inl _ =>
        after [ELog Info "start monitoring policy" None; ECall (CNewTicker (5 * Second)) RNil]
              (monitorLoop D id (5 * Second) (5 * Second) sel s)
    | inr d =>
        if d <=? 0
        then (s, [ELog Info "start monitoring policy" None],
              Panic "non-positive interval for NewTicker")
        else after [ELog Info "start monitoring policy" None; ECall (CNewTicker d) RNil]
                   (monitorLoop D id d d sel s)
    end.
Proof.
  unfold monitorPolicy. unfold_steps. unfold time_NewTicker.
  destruct (time_ParseDuration D (ScanInterval (config s))) as [e | d].
  - simpl. destruct (monitorLoop D id (5 * Second) (5 * Second) sel s) as [[s1 t1] r1].
    reflexivity.
  - destruct (d <=? 0); [reflexivity |].
    destruct (monitorLoop D id d d sel s) as [[s1 t1] r1]. reflexivity.
Qed.

(** *** More on the plugin load pass *)

Lemma loadBlocks_events {I : Type} (k : Kind) (key what : string) (mgr : Manager W I)
      (setConfig : I -> Cfg -> W -> W * option error) (dir : string)
      (blocks : list PluginBlock) (s : State W) :
  kills (trace_of (loadBlocks D k key what mgr setConfig dir blocks s)) = [] /\
  (result_of (loadBlocks D k key what mgr setConfig dir blocks s) = Ok None ->
   trace_of (loadBlocks D k key what mgr setConfig dir blocks s)
   = flat_map (load_events (path_Join D) k key what dir) blocks).
Proof.
  revert s. induction blocks as [| block blocks IH]; intros s.
  - split; reflexivity.
  - cbn [loadBlocks]. unfold_steps.
    next_call as [e |]; [split; [reflexivity | discriminate] |].
    next_call as [e | plugin]; [split; [reflexivity | discriminate] |].
    next_call as [e |]; [split; [reflexivity | discriminate] |].
    match goal with
    | |- context [loadBlocks D k key what mgr setConfig dir blocks ?s'] =>
        destruct (IH s') as [Hkills Htrace];
        destruct (loadBlocks D k key what mgr setConfig dir blocks s') as [[s1 t1] r1]
    end.
    unfold trace_of, result_of in *. simpl in *. split; [exact Hkills |].
    intros Hres. rewrite (Htrace Hres). reflexivity.
Qed.

(** X7. When the load pass succeeds, it has gone through the metric
    sources of the configuration and then the built-in "local-nomad" one,
    the targets of the configuration and then the built-in "local-nomad"
    one, and the strategies of the configuration, in this order; each
    plugin is registered with the command [PluginDir/Driver], then
    dispensed, then given its own configuration, all with success. The
    built-in blocks stay appended to the configuration. *)
Theorem loadPlugins_success_trace (s : State W) :
  result_of (loadPlugins D s) = Ok None ->
  trace_of (loadPlugins D s)
  = flat_map (load_events (path_Join D) KAPM "apm" "loading APM plugin"
                          (PluginDir (config s)))
             (APMs (config s) ++ [localNomadAPM (config s)])
    ++ flat_map (load_events (path_Join D) KTarget "target" "loading Target plugin"
                             (PluginDir (config s)))
                (Targets (config s) ++ [localNomadTarget (config s)])
    ++ flat_map (load_events (path_Join D) KStrategy "strategy" "loading Strategy plugin"
                             (PluginDir (config s)))
                (Strategies (config s)) /\
  config (state_of (loadPlugins D s))
  = appendTarget (appendAPM (config s) (localNomadAPM (config s)))
                 (localNomadTarget (config s)).
Proof.
  unfold loadPlugins, loadAPMPlugins, loadTargetPlugins, loadStrategyPlugins.
  unfold_steps.
  match goal with
  | |- context [loadBlocks D ?k ?key ?what ?mgr ?sc ?dir ?blocks ?s'] =>
      destruct (loadBlocks_events k key what mgr sc dir blocks s') as [_ Ht1];
      destruct (loadBlocks_run k key what mgr sc dir blocks s')
        as (s1 & t1 & r1 & Heq1 & Hcfg1 & _);
      rewrite Heq1 in Ht1 |- *
  end.
  simpl in Hcfg1. destruct r1 as [e |]; simpl; [discriminate |].
  rewrite Hcfg1. simpl.
  match goal with
  | |- context [loadBlocks D ?k ?key ?what ?mgr ?sc ?dir ?blocks ?s'] =>
      destruct (loadBlocks_events k key what mgr sc dir blocks s') as [_ Ht2];
      destruct (loadBlocks_run k key what mgr sc dir blocks s')
        as (s2 & t2 & r2 & Heq2 & Hcfg2 & _);
      rewrite Heq2 in Ht2 |- *
  end.
  simpl in Hcfg2. destruct r2 as [e |]; simpl; [discriminate |].
  rewrite Hcfg2. simpl.
  match goal with
  | |- context [loadBlocks D ?k ?key ?what ?mgr ?sc ?dir ?blocks ?s'] =>
      destruct (loadBlocks_events k key what mgr sc dir blocks s') as [_ Ht3];
      destruct (loadBlocks_run k key what mgr sc dir blocks s')
        as (s3 & t3 & r3 & Heq3 & Hcfg3 & _);
      rewrite Heq3 in Ht3 |- *
  end.
  unfold trace_of, result_of in *. simpl in *.
  destruct r3 as [e |]; simpl; [discriminate |]. intros _.
  rewrite (Ht1 eq_refl), (Ht2 eq_refl), (Ht3 eq_refl), Hcfg3, Hcfg2, ?app_nil_r.
  split; reflexivity.
Qed.

Lemma loadPlugins_kills (s : State W) : kills (trace_of (loadPlugins D s)) = [].
Proof.
  unfold loadPlugins, loadAPMPlugins, loadTargetPlugins, loadStrategyPlugins.
  unfold_steps.
  repeat match goal with
  | |- context [loadBlocks D ?k ?key ?what ?mgr ?sc ?dir ?blocks ?s'] =>
      let Hk := fresh "Hk" in
      destruct (loadBlocks_events k key what mgr sc dir blocks s') as [Hk _];
      unfold trace_of in Hk;
      destruct (loadBlocks D k key what mgr sc dir blocks s') as [[? ?] [[?|]|?]];
      simpl in *
  end; unfold kills in *; rewrite ?omap_app; simpl;
    repeat match goal with H : omap kill_of _ = [] |- _ => rewrite H; clear H end;
    reflexivity.
Qed.

(** *** More on the supervisor: the plugins at the end of [Run] *)

Lemma startMonitors_kills (policies : list Policy) (m : gmap string CancelFunc) (s : State W) :
  kills (trace_of (startMonitors (Value:=Value) policies m s)) = [].
Proof.
  revert m s. induction policies as [| p policies IH]; intros m s; [reflexivity |].
  cbn [startMonitors]. destruct (m !! ID p) as [cancel |]; [apply IH |].
  unfold bind, context_WithCancel, go_monitorPolicy. simpl.
  match goal with
  | |- context [startMonitors policies ?m' ?s'] =>
      specialize (IH m' s'); destruct (startMonitors policies m' s') as [[s1 t1] r1]
  end.
  exact IH.
Qed.

Lemma cancelOld_kills (policies : list Policy) (entries : list (string * CancelFunc))
      (s : State W) :
  kills (trace_of (cancelOld (Value:=Value) policies entries s)) = [].
Proof.
  revert s. induction entries as [| [id cancel] entries IH]; intros s; [reflexivity |].
  cbn [cancelOld]. unfold bind.
  destruct (found id policies); unfold ret, call_cancel; simpl;
    match goal with
    | |- context [cancelOld policies entries ?s'] =>
        specialize (IH s'); destruct (cancelOld policies entries s') as [[s1 t1] r1]
    end; exact IH.
Qed.

Lemma stopMonitors_kills (entries : list (string * CancelFunc)) (s : State W) :
  kills (trace_of (stopMonitors (Value:=Value) entries s)) = [].
Proof.
  revert s. induction entries as [| [id cancel] entries IH]; intros s; [reflexivity |].
  cbn [stopMonitors]. unfold bind, go_cancel. simpl.
  match goal with
  | |- context [stopMonitors entries ?s'] =>
      specialize (IH s'); destruct (stopMonitors entries s') as [[s1 t1] r1]
  end.
  exact IH.
Qed.

Lemma RunLoop_kills (sel : list RunSelect) (m : gmap string CancelFunc) (s : State W) :
  kills (trace_of (RunLoop D m sel s))
  = if has_done sel then [KAPM; KTarget; KStrategy] else [].
Proof.
  revert m s. induction sel as [| [policies | err |] sel IH]; intros m s.
  - reflexivity.
  - cbn [RunLoop]. unfold bind at 1 2. unfold logger_Info.
    pose proof (startMonitors_kills policies m s) as Hk1.
    destruct (startMonitors_run policies m s) as (s1 & t1 & m1 & Heq1 & _).
    rewrite Heq1 in Hk1 |- *. unfold bind at 1.
    pose proof (cancelOld_kills policies (map_to_list m1) s1) as Hk2.
    destruct (cancelOld_run policies (map_to_list m1) s1) as (s2 & t2 & Heq2 & _).
    rewrite Heq2 in Hk2 |- *.
    specialize (IH m1 s2). destruct (RunLoop D m1 sel s2) as [[s3 t3] r3].
    unfold kills, trace_of in *. simpl in *. rewrite !omap_app, Hk1, Hk2. exact IH.
  - cbn [RunLoop]. unfold bind at 1. unfold logger_Error.
    specialize (IH m s). destruct (RunLoop D m sel s) as [[s3 t3] r3]. exact IH.
  - cbn [RunLoop]. unfold bind at 1.
    pose proof (stopMonitors_kills (map_to_list m) s) as Hk1.
    destruct (stopMonitors_run (map_to_list m) s) as (s1 & t1 & Heq1 & _).
    rewrite Heq1 in Hk1 |- *. unfold_steps.
    unfold kills, trace_of in *. simpl in *. rewrite omap_app, Hk1. reflexivity.
Qed.

(** X8. The plugin managers are killed only by a [Run] that returns nil:
    then the metric-source manager, the target manager and the strategy
    manager are killed once each, in this order. A [Run] that returns an
    error of its start kills no manager, whatever plugins it had launched
    before the failure, and a [Run] still in its loop has killed none. *)
Theorem Run_kills_managers_on_shutdown_only (sel : list RunSelect) (s : State W) :
  kills (trace_of (Run D sel s))
  = match result_of (Run D sel s) with
    | Ok (Returns None) => [KAPM; KTarget; KStrategy]
    | _ => []
    end.
Proof.
  unfold Run, bind, get_config, call_err, trace_of, result_of. simpl.
  next_call as [e |]; [reflexivity |].
  pose proof (loadPlugins_kills (with_world s w)) as Hk1.
  destruct (loadPlugins_run (with_world s w)) as (s1 & t1 & r & Heq1 & _).
  rewrite Heq1 in Hk1 |- *. destruct r as [e |].
  - unfold kills, trace_of in *. simpl in *. rewrite omap_app, Hk1. reflexivity.
  - pose proof (RunLoop_kills sel ∅ s1) as Hk2.
    destruct (RunLoop_run sel ∅ s1) as (s2 & t2 & out & Heq2 & _ & Hout).
    rewrite Heq2 in Hk2 |- *.
    unfold kills, trace_of in *. simpl in *. rewrite omap_app, Hk1, Hk2.
    destruct (has_done sel); [subst out; reflexivity |].
    destruct Hout as [m ->]. reflexivity.
Qed.

(** *** More on the supervisor: the monitors and the policy sets *)

Lemma found_spec (id : string) (policies : list Policy) :
  found id policies = true <-> id ∈ map ID policies.
Proof.
  induction policies as [| p policies IH]; simpl.
  - split; [discriminate | intros H; inversion H].
  - destruct (String.eqb_spec (ID p) id) as [-> | Hne].
    + split; [intros _; left | reflexivity].
    + rewrite IH. split; [intros H; right; exact H |].
      intros H. apply elem_of_cons in H as [-> | H]; [congruence | exact H].
Qed.

Lemma state_eq (s s' : State W) :
  world s = world s' -> config s = config s' -> ctx_next s = ctx_next s' ->
  ctx_cancelled s = ctx_cancelled s' -> goroutines s = goroutines s' -> s = s'.
Proof. destruct s, s'. simpl. intros -> -> -> -> ->. reflexivity. Qed.

Lemma elem_of_liveMonitors (id : string) (s : State W) :
  id ∈ liveMonitors s <->
  exists ctx, (ctx, id) ∈ goroutines s /\ ctx ∉ ctx_cancelled s.
Proof.
  unfold liveMonitors. rewrite list_elem_of_omap. split.
  - intros ([ctx id'] & Hin & Hlive). simpl in Hlive.
    destruct (decide (ctx ∈ ctx_cancelled s)); [discriminate |].
    injection Hlive as ->. eauto.
  - intros (ctx & Hin & Hlive). exists (ctx, id). split; [exact Hin |]. simpl.
    destruct (decide (ctx ∈ ctx_cancelled s)); [contradiction | reflexivity].
Qed.

Lemma fresh_supervised (s : State W) : fresh s -> supervised ∅ s.
Proof.
  intros [Hg Hc]. unfold supervised. rewrite Hg, Hc. repeat split.
  - intros H. inversion H.
  - intros H. rewrite lookup_empty in H. discriminate.
  - constructor.
  - intros id ctx H. rewrite lookup_empty in H. discriminate.
  - intros ctx H. exfalso. exact (not_elem_of_empty ctx H).
  - intros id1 id2 ctx H. rewrite lookup_empty in H. discriminate.
Qed.

(** An ID already in the map starts nothing. *)
Lemma startMonitors_tracks (policies : list Policy) (m m1 : gmap string CancelFunc)
      (s s1 : State W) (t1 : list (Event Value)) :
  startMonitors policies m s = (s1, t1, Ok m1) ->
  forall id, id ∈ map ID policies -> is_Some (m1 !! id).
Proof.
  revert m s s1 t1. induction policies as [| p policies IH]; intros m s s1 t1 Hrun id Hin.
  - inversion Hin.
  - cbn [startMonitors] in Hrun. simpl in Hin.
    destruct (m !! ID p) as [cancel |] eqn:Hlookup.
    + apply elem_of_cons in Hin as [-> | Hin]; [| exact (IH _ _ _ _ Hrun id Hin)].
      apply startMonitors_keeps in Hrun.
      exists cancel. exact (lookup_weaken _ _ _ _ Hlookup Hrun).
    + unfold bind, context_WithCancel, go_monitorPolicy in Hrun. simpl in Hrun.
      match type of Hrun with
      | context [startMonitors policies ?m' ?s'] =>
          destruct (startMonitors policies m' s') as [[s2 t2] [m2 | msg]] eqn:Hrest
      end; [| discriminate].
      injection Hrun as <- _ <-.
      apply elem_of_cons in Hin as [-> | Hin]; [| exact (IH _ _ _ _ Hrest id Hin)].
      apply startMonitors_keeps in Hrest.
      exists (ctx_next s). apply (lookup_weaken _ _ _ _ (lookup_insert_eq m (ID p) _) Hrest).
Qed.

Lemma startMonitors_noop (policies : list Policy) (m : gmap string CancelFunc) (s : State W) :
  (forall id, id ∈ map ID policies -> is_Some (m !! id)) ->
  startMonitors (Value:=Value) policies m s = (s, [], Ok m).
Proof.
  induction policies as [| p policies IH]; intros Hall; [reflexivity |].
  cbn [startMonitors]. destruct (Hall (ID p)) as [cancel ->]; [left |].
  apply IH. intros id Hin. apply Hall. right. exact Hin.
Qed.

Lemma supervised_start (m : gmap string CancelFunc) (s : State W) (id : string) :
  supervised m s ->
  m !! id = None ->
  supervised (<[ id := ctx_next s ]> m)
             {| world := world s; config := config s; ctx_next := S (ctx_next s);
                ctx_cancelled := ctx_cancelled s;
                goroutines := goroutines s ++ [(ctx_next s, id)] |}.
Proof.
  intros (H1 & H2 & H3 & H4 & H5) Hnone. unfold supervised. simpl. unfold CancelFunc in *.
  split; [| split; [| split; [| split]]].
  - intros ctx id'. rewrite elem_of_app, list_elem_of_singleton, lookup_insert.
    destruct (decide (id = id')) as [<- | Hne].
    + split.
      * intros [Hin | [= -> ]]; [| reflexivity].
        apply H1 in Hin. rewrite Hnone in Hin. discriminate.
      * intros [= ->]. right. reflexivity.
    + rewrite H1. split; [intros [H | [= _ ->]]; [exact H | congruence] | intros H; left; exact H].
  - rewrite fmap_app. apply NoDup_app. split; [exact H2 |]. split; [| apply NoDup_singleton].
    intros id' Hin Hin'. apply list_elem_of_singleton in Hin'. subst id'.
    apply list_elem_of_fmap in Hin as ([ctx id'] & Heq & Hin). simpl in Heq. subst id'.
    apply H1 in Hin. rewrite Hnone in Hin. discriminate.
  - intros id' ctx. rewrite lookup_insert.
    destruct (decide (id = id')); [intros [= <-]; lia |].
    intros H. apply H3 in H. lia.
  - intros ctx H. apply H4 in H. lia.
  - intros id1 id2 ctx. rewrite !lookup_insert.
    destruct (decide (id = id1)) as [<- | Hne1]; destruct (decide (id = id2)) as [<- | Hne2].
    + reflexivity.
    + intros [= <-] H. apply H3 in H. lia.
    + intros H [= <-]. apply H3 in H. lia.
    + apply H5.
Qed.

(** Starting the monitors of a set keeps what the loop keeps, cancels
    nothing, touches no entry of an ID outside the set, and gives an ID
    that had no entry a context that is not cancelled. *)
Lemma startMonitors_supervised (policies : list Policy) (m m1 : gmap string CancelFunc)
      (s s1 : State W) (t1 : list (Event Value)) :
  supervised m s ->
  startMonitors policies m s = (s1, t1, Ok m1) ->
  supervised m1 s1 /\
  ctx_cancelled s1 = ctx_cancelled s /\
  (forall id, id ∉ map ID policies -> m1 !! id = m !! id) /\
  (forall id ctx, m !! id = None -> m1 !! id = Some ctx -> ctx ∉ ctx_cancelled s1).
Proof.
  revert m s s1 t1. induction policies as [| p policies IH]; intros m s s1 t1 Hsup Hrun.
  - injection Hrun as <- _ <-. unfold CancelFunc in *.
    split; [assumption |]. split; [reflexivity |]. split; [reflexivity |].
    intros id0 ctx Hnone Hsome. rewrite Hnone in Hsome. discriminate.
  - cbn [startMonitors] in Hrun. destruct (m !! ID p) as [cancel |] eqn:Hlookup.
    + destruct (IH _ _ _ _ Hsup Hrun) as (Hsup1 & Hc & Hout & Hnew).
      split; [exact Hsup1 |]. split; [exact Hc |]. split; [| exact Hnew].
      intros id0 Hid. apply Hout. intros Hin. apply Hid. simpl. right. exact Hin.
    + unfold bind, context_WithCancel, go_monitorPolicy in Hrun. simpl in Hrun.
      match type of Hrun with
      | context [startMonitors policies ?m' ?s'] =>
          destruct (startMonitors policies m' s') as [[s2 t2] [m2 | msg]] eqn:Hrest
      end; [| discriminate].
      injection Hrun as <- _ <-.
      pose proof (supervised_start m s (ID p) Hsup Hlookup) as Hsup'.
      destruct (IH _ _ _ _ Hsup' Hrest) as (Hsup1 & Hc & Hout & Hnew). simpl in Hc.
      split; [exact Hsup1 |]. split; [exact Hc |]. split.
      * intros id Hid. simpl in Hid. apply not_elem_of_cons in Hid as [Hne Hid].
        rewrite (Hout id Hid). apply lookup_insert_ne. congruence.
      * intros id ctx Hnone Hsome.
        destruct (decide (id = ID p)) as [-> | Hne].
        -- apply startMonitors_keeps in Hrest.
           pose proof (lookup_weaken _ _ _ _ (lookup_insert_eq m (ID p) (ctx_next s)) Hrest) as Hn.
           unfold CancelFunc in *. rewrite Hn in Hsome. injection Hsome as <-. rewrite Hc.
           destruct Hsup as (_ & _ & _ & H4 & _). intros Hin. apply H4 in Hin. lia.
        -- apply (Hnew id ctx); [| exact Hsome].
           rewrite lookup_insert_ne; [exact Hnone | congruence].
Qed.

(** Cancelling the old policies changes only the set of cancelled
    contexts: it gains the handles of the entries whose ID is not in the
    set. *)
Lemma cancelOld_state (policies : list Policy) (entries : list (string * CancelFunc))
      (s : State W) :
  world (state_of (cancelOld (Value:=Value) policies entries s)) = world s /\
  config (state_of (cancelOld (Value:=Value) policies entries s)) = config s /\
  ctx_next (state_of (cancelOld (Value:=Value) policies entries s)) = ctx_next s /\
  goroutines (state_of (cancelOld (Value:=Value) policies entries s)) = goroutines s /\
  forall c, c ∈ ctx_cancelled (state_of (cancelOld (Value:=Value) policies entries s)) <->
            c ∈ ctx_cancelled s \/ exists id, (id, c) ∈ entries /\ found id policies = false.
Proof.
  revert s. induction entries as [| [id cancel] entries IH]; intros s.
  - do 4 (split; [reflexivity |]). intros c. split; [intros H; left; exact H |].
    intros [H | (id & H & _)]; [exact H | inversion H].
  - cbn [cancelOld]. unfold bind.
    destruct (found id policies) eqn:Hfound; unfold ret, call_cancel; simpl;
      match goal with
      | |- context [cancelOld policies entries ?s'] =>
          destruct (IH s') as (Hw & Hcfg & Hn & Hg & Hc);
          destruct (cancelOld policies entries s') as [[s1 t1] r1]
      end; unfold state_of in *; simpl in *;
      do 4 (split; [assumption |]); intros c; rewrite Hc.
    + split.
      * intros [H | (id' & H & Hf)]; [left; exact H |]. right. exists id'. split; [right |]; assumption.
      * intros [H | (id' & H & Hf)]; [left; exact H |].
        apply elem_of_cons in H as [[= -> ->] | H]; [congruence |]. right. eauto.
    + rewrite elem_of_union, elem_of_singleton. split.
      * intros [[-> | H] | (id' & H & Hf)].
        -- right. exists id. split; [left | exact Hfound].
        -- left. exact H.
        -- right. exists id'. split; [right |]; assumption.
      * intros [H | (id' & H & Hf)]; [left; right; exact H |].
        apply elem_of_cons in H as [[= -> ->] | H]; [left; left; reflexivity |]. right. eauto.
Qed.

(** Stopping the monitors changes only the set of cancelled contexts: it
    gains the handles of all the entries. *)
Lemma stopMonitors_state (entries : list (string * CancelFunc)) (s : State W) :
  ctx_next (state_of (stopMonitors (Value:=Value) entries s)) = ctx_next s /\
  goroutines (state_of (stopMonitors (Value:=Value) entries s)) = goroutines s /\
  forall c, c ∈ ctx_cancelled (state_of (stopMonitors (Value:=Value) entries s)) <->
            c ∈ ctx_cancelled s \/ exists id, (id, c) ∈ entries.
Proof.
  revert s. induction entries as [| [id cancel] entries IH]; intros s.
  - do 2 (split; [reflexivity |]). intros c. split; [intros H; left; exact H |].
    intros [H | (id & H)]; [exact H | inversion H].
  - cbn [stopMonitors]. unfold bind, go_cancel. simpl.
    match goal with
    | |- context [stopMonitors entries ?s'] =>
        destruct (IH s') as (Hn & Hg & Hc);
        destruct (stopMonitors entries s') as [[s1 t1] r1]
    end. unfold state_of in *. simpl in *.
    do 2 (split; [assumption |]).
    intros c. rewrite Hc, elem_of_union, elem_of_singleton. split.
    + intros [[-> | H] | (id' & H)].
      * right. exists id. left.
      * left. exact H.
      * right. exists id'. right. exact H.
    + intros [H | (id' & H)]; [left; right; exact H |].
      apply elem_of_cons in H as [[= -> ->] | H]; [left; left; reflexivity |]. right. eauto.
Qed.

(** One pass of the loop of [Run] over a policy set. *)
Lemma RunLoop_policies (m : gmap string CancelFunc) (policies : list Policy)
      (rest : list RunSelect) (s : State W) :
  exists s1 t1 m1,
    startMonitors policies m s = (s1, t1, Ok m1) /\
    RunLoop D m (PoliciesCn policies :: rest) s
    = after (ELog Info ("found " +:+ pretty (length policies) +:+ " policies") None
             :: t1 ++ trace_of (cancelOld (Value:=Value) policies (map_to_list m1) s1))
            (RunLoop D m1 rest (state_of (cancelOld (Value:=Value) policies (map_to_list m1) s1))).
Proof.
  destruct (startMonitors_run policies m s) as (s1 & t1 & m1 & Hstart & _).
  exists s1, t1, m1. split; [exact Hstart |].
  cbn [RunLoop]. unfold bind at 1 2. unfold logger_Info. rewrite Hstart.
  unfold bind at 1.
  destruct (cancelOld_run policies (map_to_list m1) s1) as (s2 & t2 & -> & _).
  unfold after, state_of, trace_of, result_of. simpl.
  destruct (RunLoop D m1 rest s2) as [[s3 t3] r3]. simpl.
  rewrite <- app_assoc. reflexivity.
Qed.

(** What one pass over a policy set establishes. *)
Lemma reconcile_supervised (m m1 : gmap string CancelFunc) (policies : list Policy)
      (s s1 : State W) (t1 : list (Event Value)) :
  supervised m s ->
  startMonitors policies m s = (s1, t1, Ok m1) ->
  supervised m1 (state_of (cancelOld (Value:=Value) policies (map_to_list m1) s1)) /\
  (forall id,
      id ∈ liveMonitors (state_of (cancelOld (Value:=Value) policies (map_to_list m1) s1)) ->
      id ∈ map ID policies) /\
  (forall id,
      m !! id = None -> id ∈ map ID policies ->
      id ∈ liveMonitors (state_of (cancelOld (Value:=Value) policies (map_to_list m1) s1))) /\
  (forall id, id ∉ map ID policies -> m1 !! id = m !! id).
Proof.
  intros Hsup Hstart.
  destruct (startMonitors_supervised _ _ _ _ _ _ Hsup Hstart)
    as ((H1 & H2 & H3 & H4 & H5) & Hc & Hout & Hnew).
  pose proof (startMonitors_tracks _ _ _ _ _ _ Hstart) as Htracks.
  destruct (cancelOld_state policies (map_to_list m1) s1) as (Hw & Hcfg & Hn & Hg & Hcancel).
  unfold CancelFunc in *.
  split; [| split; [| split]].
  - unfold supervised. rewrite Hn, Hg. split; [exact H1 |]. split; [exact H2 |].
    split; [exact H3 |]. split; [| exact H5].
    intros ctx Hin. apply Hcancel in Hin as [Hin | (id & Hin & _)]; [exact (H4 ctx Hin) |].
    apply elem_of_map_to_list in Hin. exact (H3 id ctx Hin).
  - intros id Hlive. apply elem_of_liveMonitors in Hlive as (ctx & Hin & Hnot).
    rewrite Hg in Hin. apply H1 in Hin.
    apply found_spec. destruct (found id policies) eqn:Hfound; [reflexivity |].
    exfalso. apply Hnot. apply Hcancel. right. exists id. split; [| exact Hfound].
    apply elem_of_map_to_list. exact Hin.
  - intros id Hnone Hin. destruct (Htracks id Hin) as [ctx Hctx].
    apply elem_of_liveMonitors. exists ctx. rewrite Hg. split; [apply H1; exact Hctx |].
    intros Hcancelled. apply Hcancel in Hcancelled as [Hcancelled | (id' & Hin' & Hfound)].
    + exact (Hnew id ctx Hnone Hctx Hcancelled).
    + apply elem_of_map_to_list in Hin'. rewrite (H5 _ _ _ Hin' Hctx) in Hfound.
      apply found_spec in Hin. rewrite Hin in Hfound. discriminate.
  - exact Hout.
Qed.

Lemma after_eq {A : Type} (tr : list (Event Value)) (o : State W * list (Event Value) * Res A)
      (s1 : State W) (t1 : list (Event Value)) (r : Res A) :
  after tr o = (s1, t1, r) ->
  exists t, o = (s1, t, r) /\ t1 = tr ++ t.
Proof.
  destruct o as [[s2 t2] r2]. unfold after, state_of, trace_of, result_of. simpl.
  intros [= -> <- ->]. eauto.
Qed.

(** After any policy sets and feed errors, once the loop of [Run] has
    gone through a policy set, every monitor whose context is not cancelled
    is the monitor of a policy of that set. *)
Lemma RunLoop_live_monitors_are_in_the_last_set (pre : list RunSelect)
        (policies : list Policy) (s s1 : State W) (t1 : list (Event Value))
        (m1 : gmap string CancelFunc) :
  fresh s ->
  RunLoop D ∅ (pre ++ [PoliciesCn policies]) s = (s1, t1, Ok (Blocked m1)) ->
  forall id, id ∈ liveMonitors s1 -> id ∈ map ID policies.
Proof.
  intros Hfresh. apply fresh_supervised in Hfresh. revert Hfresh.
  generalize (∅ : gmap string CancelFunc) as m. revert s s1 t1.
  induction pre as [| [policies' | err |] pre IH]; intros s s1 t1 m Hsup Hrun.
  - cbn [app] in Hrun.
    destruct (RunLoop_policies m policies [] s) as (s2 & t2 & m2 & Hstart & Heq).
    rewrite Heq in Hrun. apply after_eq in Hrun as (t & Hrun & _).
    injection Hrun as <- _ _.
    exact (proj1 (proj2 (reconcile_supervised _ _ _ _ _ _ Hsup Hstart))).
  - cbn [app] in Hrun.
    destruct (RunLoop_policies m policies' (pre ++ [PoliciesCn policies]) s)
      as (s2 & t2 & m2 & Hstart & Heq).
    rewrite Heq in Hrun. apply after_eq in Hrun as (t & Hrun & _).
    exact (IH _ _ _ _ (proj1 (reconcile_supervised _ _ _ _ _ _ Hsup Hstart)) Hrun).
  - cbn [app RunLoop] in Hrun. unfold bind at 1 in Hrun. unfold logger_Error in Hrun.
    destruct (RunLoop D m (pre ++ [PoliciesCn policies]) s) as [[s2 t2] r2] eqn:Hrest.
    injection Hrun as <- _ ->. exact (IH _ _ _ _ Hsup Hrest).
  - cbn [app RunLoop] in Hrun. unfold bind at 1 in Hrun.
    destruct (stopMonitors_run (map_to_list m) s) as (s2 & t2 & Hstop & _).
    rewrite Hstop in Hrun. unfold_steps. discriminate Hrun.
Qed.

(** A policy whose ID was in none of the sets received before gets a
    monitor whose context is not cancelled when the loop of [Run] goes
    through a set that has it. *)
Lemma RunLoop_new_policy_gets_a_live_monitor (pre : list RunSelect)
        (policies : list Policy) (s s1 : State W) (t1 : list (Event Value))
        (m1 : gmap string CancelFunc) (id : string) :
  fresh s ->
  id ∉ seen pre ->
  id ∈ map ID policies ->
  RunLoop D ∅ (pre ++ [PoliciesCn policies]) s = (s1, t1, Ok (Blocked m1)) ->
  id ∈ liveMonitors s1.
Proof.
  intros Hfresh. apply fresh_supervised in Hfresh.
  assert (Hnone : (∅ : gmap string CancelFunc) !! id = None) by apply lookup_empty.
  revert Hfresh Hnone. generalize (∅ : gmap string CancelFunc) as m. revert s s1 t1.
  induction pre as [| [policies' | err |] pre IH]; intros s s1 t1 m Hsup Hnone Hseen Hin Hrun.
  - cbn [app] in Hrun.
    destruct (RunLoop_policies m policies [] s) as (s2 & t2 & m2 & Hstart & Heq).
    rewrite Heq in Hrun. apply after_eq in Hrun as (t & Hrun & _).
    injection Hrun as <- _ _.
    exact (proj1 (proj2 (proj2 (reconcile_supervised _ _ _ _ _ _ Hsup Hstart))) id Hnone Hin).
  - cbn [app] in Hrun. simpl in Hseen. apply not_elem_of_app in Hseen as [Hnew Hseen].
    destruct (RunLoop_policies m policies' (pre ++ [PoliciesCn policies]) s)
      as (s2 & t2 & m2 & Hstart & Heq).
    rewrite Heq in Hrun. apply after_eq in Hrun as (t & Hrun & _).
    destruct (reconcile_supervised _ _ _ _ _ _ Hsup Hstart) as (Hsup2 & _ & _ & Hout).
    refine (IH _ _ _ _ Hsup2 _ Hseen Hin Hrun).
    unfold CancelFunc in *. rewrite (Hout id Hnew). exact Hnone.
  - cbn [app RunLoop] in Hrun. simpl in Hseen. unfold bind at 1 in Hrun.
    unfold logger_Error in Hrun.
    destruct (RunLoop D m (pre ++ [PoliciesCn policies]) s) as [[s2 t2] r2] eqn:Hrest.
    injection Hrun as <- _ ->. exact (IH _ _ _ _ Hsup Hnone Hseen Hin Hrest).
  - cbn [app RunLoop] in Hrun. unfold bind at 1 in Hrun.
    destruct (stopMonitors_run (map_to_list m) s) as (s2 & t2 & Hstop & _).
    rewrite Hstop in Hrun. unfold_steps. discriminate Hrun.
Qed.

Lemma liveMonitors_sublist (s : State W) : liveMonitors s `sublist_of` (goroutines s).*2.
Proof.
  unfold liveMonitors. induction (goroutines s) as [| [ctx id] l IH]; [constructor |].
  cbn. destruct (decide (ctx ∈ ctx_cancelled s)); constructor; exact IH.
Qed.

(** The state in which [Run] leaves its loop. *)
Lemma RunLoop_done_state (m : gmap string CancelFunc) (rest : list RunSelect) (s : State W) :
  ctx_next (state_of (RunLoop D m (RunCtxDone :: rest) s))
  = ctx_next (state_of (stopMonitors (Value:=Value) (map_to_list m) s)) /\
  goroutines (state_of (RunLoop D m (RunCtxDone :: rest) s))
  = goroutines (state_of (stopMonitors (Value:=Value) (map_to_list m) s)) /\
  ctx_cancelled (state_of (RunLoop D m (RunCtxDone :: rest) s))
  = ctx_cancelled (state_of (stopMonitors (Value:=Value) (map_to_list m) s)).
Proof.
  cbn [RunLoop].
  destruct (stopMonitors_run (map_to_list m) s) as (s1 & t1 & Heq & _).
  unfold_steps. rewrite Heq. repeat split.
Qed.

(** What the loop of [Run] keeps, and what it leaves when it ends. *)
Lemma RunLoop_supervised (sel : list RunSelect) (m : gmap string CancelFunc) (s : State W) :
  supervised m s ->
  (exists m', supervised m' (state_of (RunLoop D m sel s))) /\
  (has_done sel = true -> liveMonitors (state_of (RunLoop D m sel s)) = []).
Proof.
  revert m s. induction sel as [| [policies | err |] sel IH]; intros m s Hsup.
  - split; [exists m; exact Hsup | discriminate].
  - destruct (RunLoop_policies m policies sel s) as (s1 & t1 & m1 & Hstart & ->).
    destruct (reconcile_supervised _ _ _ _ _ _ Hsup Hstart) as (Hsup1 & _).
    exact (IH _ _ Hsup1).
  - cbn [RunLoop]. unfold bind, logger_Error.
    specialize (IH m s Hsup). destruct (RunLoop D m sel s) as [[s1 t1] r1]. exact IH.
  - destruct (RunLoop_done_state m sel s) as (Hn & Hg & Hc).
    destruct (stopMonitors_state (map_to_list m) s) as (Hn' & Hg' & Hc').
    destruct Hsup as (H1 & H2 & H3 & H4 & H5). unfold CancelFunc in *.
    split.
    + exists m. unfold supervised. rewrite Hn, Hg, Hc, Hn', Hg'.
      split; [exact H1 |]. split; [exact H2 |]. split; [exact H3 |]. split; [| exact H5].
      intros ctx Hin. apply Hc' in Hin as [Hin | (id & Hin)]; [exact (H4 ctx Hin) |].
      apply elem_of_map_to_list in Hin. exact (H3 id ctx Hin).
    + intros _.
      match goal with
      | |- ?live = [] =>
          destruct live as [| id l] eqn:Hlive; [reflexivity |];
          assert (Hin : id ∈ live) by (rewrite Hlive; left)
      end.
      apply elem_of_liveMonitors in Hin as (ctx & Hin & Hnot).
      rewrite Hg, Hg' in Hin. rewrite Hc in Hnot. exfalso. apply Hnot. apply Hc'.
      right. exists id. apply elem_of_map_to_list. apply H1. exact Hin.
Qed.

(** Over a whole run of the loop of [Run], whatever it receives, no two
    of the monitors it has started are for the same policy ID; so no two
    monitors whose context is not cancelled are for the same policy. *)
Lemma RunLoop_one_monitor_per_policy (sel : list RunSelect) (s : State W) :
  fresh s ->
  NoDup (goroutines (state_of (RunLoop D ∅ sel s))).*2 /\
  NoDup (liveMonitors (state_of (RunLoop D ∅ sel s))).
Proof.
  intros Hfresh.
  destruct (RunLoop_supervised sel ∅ s (fresh_supervised s Hfresh))
    as [(m' & _ & Hnodup & _) _].
  split; [exact Hnodup |].
  exact (sublist_NoDup _ _ Hnodup (liveMonitors_sublist _)).
Qed.

(** When the loop of [Run] has received that its context is done, the
    context of every monitor it started is cancelled. *)
Lemma RunLoop_shutdown_cancels_every_monitor (sel : list RunSelect) (s : State W) :
  fresh s ->
  has_done sel = true ->
  liveMonitors (state_of (RunLoop D ∅ sel s)) = [].
Proof.
  intros Hfresh. exact (proj2 (RunLoop_supervised sel ∅ s (fresh_supervised s Hfresh))).
Qed.

(** Going through the same policy set a second time changes nothing: no
    monitor is started, and no context is cancelled that was not already. *)
Lemma RunLoop_same_set_twice (m : gmap string CancelFunc) (policies : list Policy)
        (s : State W) :
  state_of (RunLoop D m [PoliciesCn policies; PoliciesCn policies] s)
  = state_of (RunLoop D m [PoliciesCn policies] s) /\
  result_of (RunLoop D m [PoliciesCn policies; PoliciesCn policies] s)
  = result_of (RunLoop D m [PoliciesCn policies] s).
Proof.
  destruct (RunLoop_policies m policies [PoliciesCn policies] s) as (s1 & t1 & m1 & Hstart & ->).
  destruct (RunLoop_policies m policies [] s) as (s1' & t1' & m1' & Hstart' & ->).
  rewrite Hstart in Hstart'. injection Hstart' as <- <- <-.
  set (s2 := state_of (cancelOld (Value:=Value) policies (map_to_list m1) s1)).
  destruct (RunLoop_policies m1 policies [] s2) as (s3 & t3 & m3 & Hstart3 & ->).
  rewrite (startMonitors_noop policies m1 s2 (startMonitors_tracks _ _ _ _ _ _ Hstart))
    in Hstart3.
  injection Hstart3 as <- <- <-.
  unfold after, state_of, result_of. cbn [RunLoop ret fst snd]. split; [| reflexivity].
  fold (state_of (cancelOld (Value:=Value) policies (map_to_list m1) s2)).
  destruct (cancelOld_state policies (map_to_list m1) s2) as (Hw & Hcfg & Hn & Hg & Hc).
  destruct (cancelOld_state policies (map_to_list m1) s1) as (_ & _ & _ & _ & Hc1).
  fold s2 in Hc1. apply state_eq; try assumption.
  apply set_eq. intros c. rewrite Hc, Hc1. tauto.
Qed.

(** *** [Run] as a whole *)

Lemma loadBlocks_runtime {I : Type} (k : Kind) (key what : string) (mgr : Manager W I)
      (setConfig : I -> Cfg -> W -> W * option error) (dir : string)
      (blocks : list PluginBlock) (s : State W) :
  goroutines (state_of (loadBlocks D k key what mgr setConfig dir blocks s)) = goroutines s /\
  ctx_cancelled (state_of (loadBlocks D k key what mgr setConfig dir blocks s))
  = ctx_cancelled s.
Proof.
  revert s. induction blocks as [| block blocks IH]; intros s.
  - split; reflexivity.
  - cbn [loadBlocks]. unfold_steps.
    next_call as [e |]; [split; reflexivity |].
    next_call as [e | plugin]; [split; reflexivity |].
    next_call as [e |]; [split; reflexivity |].
    match goal with
    | |- context [loadBlocks D k key what mgr setConfig dir blocks ?s'] =>
        specialize (IH s');
        destruct (loadBlocks D k key what mgr setConfig dir blocks s') as [[s1 t1] r1]
    end.
    exact IH.
Qed.

(** The load pass starts no monitor and cancels no context. *)
Lemma loadPlugins_runtime (s : State W) :
  goroutines (state_of (loadPlugins D s)) = goroutines s /\
  ctx_cancelled (state_of (loadPlugins D s)) = ctx_cancelled s.
Proof.
  unfold loadPlugins, loadAPMPlugins, loadTargetPlugins, loadStrategyPlugins.
  unfold_steps.
  repeat match goal with
  | |- context [loadBlocks D ?k ?key ?what ?mgr ?sc ?dir ?blocks ?s'] =>
      let Hg := fresh "Hg" in
      let Hc := fresh "Hc" in
      destruct (loadBlocks_runtime k key what mgr sc dir blocks s') as [Hg Hc];
      unfold state_of in Hg, Hc;
      destruct (loadBlocks D k key what mgr sc dir blocks s') as [[? ?] [[?|]|?]];
      simpl in *
  end; split; congruence.
Qed.

(** [Run] either returns an error of its start, having started no monitor
    and cancelled no context, or goes on as its loop does from an empty
    [policyMonitors]. *)
Lemma Run_cases (sel : list RunSelect) (s : State W) :
  (exists e,
      result_of (Run D sel s) = Ok (Returns (Some e)) /\
      goroutines (state_of (Run D sel s)) = goroutines s /\
      ctx_cancelled (state_of (Run D sel s)) = ctx_cancelled s)
  \/ (exists s0 t0,
        goroutines s0 = goroutines s /\
        ctx_cancelled s0 = ctx_cancelled s /\
        forall sel', Run D sel' s = after t0 (RunLoop D ∅ sel' s0)).
Proof.
  unfold Run, bind, get_config, call_err. simpl.
  destruct (api_NewClient D (Region (Nomad (config s))) (Address (Nomad (config s))) (world s))
    as [w [e |]].
  - left. exists ("failed to instantiate Nomad client: " +:+ e). repeat split.
  - destruct (loadPlugins_runtime (with_world s w)) as [Hg Hc].
    destruct (loadPlugins_run (with_world s w)) as (s1 & t1 & r & Heq & _).
    rewrite Heq in Hg, Hc |- *. unfold state_of in Hg, Hc. simpl in Hg, Hc.
    destruct r as [e |].
    + left. exists ("failed to load plugins: " +:+ e). repeat split; assumption.
    + right.
      exists s1, (ECall (CNewClient (Region (Nomad (config s))) (Address (Nomad (config s))))
                        RNil :: t1).
      split; [exact Hg |]. split; [exact Hc |]. intros sel'.
      unfold after, state_of, trace_of, result_of.
      destruct (RunLoop D ∅ sel' s1) as [[s2 t2] r2]. reflexivity.
Qed.

Lemma fresh_no_live (s : State W) : goroutines s = [] -> liveMonitors s = [].
Proof. unfold liveMonitors. intros ->. reflexivity. Qed.

(** X9. After any policy sets and feed errors, once [Run] has gone through
    a policy set, every monitor whose context is not cancelled is the
    monitor of a policy of that set. *)
Theorem Run_live_monitors_are_in_the_last_set (pre : list RunSelect)
        (policies : list Policy) (s s1 : State W) (t1 : list (Event Value))
        (m1 : gmap string CancelFunc) :
  fresh s ->
  Run D (pre ++ [PoliciesCn policies]) s = (s1, t1, Ok (Blocked m1)) ->
  forall id, id ∈ liveMonitors s1 -> id ∈ map ID policies.
Proof.
  intros [Hg Hc] Hrun.
  destruct (Run_cases (pre ++ [PoliciesCn policies]) s)
    as [(e & Hres & _) | (s0 & t0 & Hg0 & Hc0 & Hloop)].
  - rewrite Hrun in Hres. discriminate Hres.
  - rewrite Hloop in Hrun. apply after_eq in Hrun as (t & Hrun & _).
    refine (RunLoop_live_monitors_are_in_the_last_set pre policies s0 s1 t m1 _ Hrun).
    split; congruence.
Qed.

(** X10. Whatever [Run] receives, no two of the monitors it has started
    are for the same policy ID; so no two monitors whose context is not
    cancelled are for the same policy. *)
Theorem Run_one_monitor_per_policy (sel : list RunSelect) (s : State W) :
  fresh s ->
  NoDup (goroutines (state_of (Run D sel s))).*2 /\
  NoDup (liveMonitors (state_of (Run D sel s))).
Proof.
  intros [Hg Hc].
  destruct (Run_cases sel s) as [(e & _ & Hg1 & _) | (s0 & t0 & Hg0 & Hc0 & Hloop)].
  - rewrite (fresh_no_live _ (eq_trans Hg1 Hg)), Hg1, Hg. split; constructor.
  - rewrite Hloop.
    change (state_of (after t0 (RunLoop D ∅ sel s0))) with (state_of (RunLoop D ∅ sel s0)).
    apply RunLoop_one_monitor_per_policy. split; congruence.
Qed.

(** X13. When [Run] has returned, the context of every monitor it started
    is cancelled. *)
Theorem Run_returns_with_every_monitor_cancelled (sel : list RunSelect) (s : State W)
        (r : option error) :
  fresh s ->
  result_of (Run D sel s) = Ok (Returns r) ->
  liveMonitors (state_of (Run D sel s)) = [].
Proof.
  intros [Hg Hc] Hres.
  destruct (Run_cases sel s) as [(e & _ & Hg1 & _) | (s0 & t0 & Hg0 & Hc0 & Hloop)].
  - apply fresh_no_live. congruence.
  - rewrite Hloop in Hres |- *.
    change (state_of (after t0 (RunLoop D ∅ sel s0))) with (state_of (RunLoop D ∅ sel s0)).
    change (result_of (after t0 (RunLoop D ∅ sel s0)))
      with (result_of (RunLoop D ∅ sel s0)) in Hres.
    apply RunLoop_shutdown_cancels_every_monitor; [split; congruence |].
    destruct (RunLoop_run sel ∅ s0) as (s2 & t2 & out & Heq & _ & Hout).
    rewrite Heq in Hres. unfold result_of in Hres. simpl in Hres.
    destruct (has_done sel); [reflexivity |].
    destruct Hout as [m ->]. discriminate Hres.
Qed.

Lemma RunLoop_same_set_twice_after (pre : list RunSelect) (m : gmap string CancelFunc)
      (policies : list Policy) (s : State W) :
  state_of (RunLoop D m (pre ++ [PoliciesCn policies; PoliciesCn policies]) s)
  = state_of (RunLoop D m (pre ++ [PoliciesCn policies]) s) /\
  result_of (RunLoop D m (pre ++ [PoliciesCn policies; PoliciesCn policies]) s)
  = result_of (RunLoop D m (pre ++ [PoliciesCn policies]) s).
Proof.
  revert m s. induction pre as [| [policies' | err |] pre IH]; intros m s.
  - apply RunLoop_same_set_twice.
  - cbn [app].
    destruct (RunLoop_policies m policies'
                (pre ++ [PoliciesCn policies; PoliciesCn policies]) s)
      as (s1 & t1 & m1 & Hstart & ->).
    destruct (RunLoop_policies m policies' (pre ++ [PoliciesCn policies]) s)
      as (s1' & t1' & m1' & Hstart' & ->).
    rewrite Hstart in Hstart'. injection Hstart' as <- <- <-. apply IH.
  - cbn [app RunLoop]. unfold bind, logger_Error.
    specialize (IH m s).
    destruct (RunLoop D m (pre ++ [PoliciesCn policies; PoliciesCn policies]) s)
      as [[s2 t2] r2].
    destruct (RunLoop D m (pre ++ [PoliciesCn policies]) s) as [[s3 t3] r3].
    exact IH.
  - split; reflexivity.
Qed.

(** X12. Receiving the same policy set twice in a row leaves [Run] where
    receiving it once does: the second pass starts no monitor and cancels
    no context that was not already cancelled. *)
Theorem Run_same_set_twice (pre : list RunSelect) (policies : list Policy) (s : State W) :
  state_of (Run D (pre ++ [PoliciesCn policies; PoliciesCn policies]) s)
  = state_of (Run D (pre ++ [PoliciesCn policies]) s) /\
  result_of (Run D (pre ++ [PoliciesCn policies; PoliciesCn policies]) s)
  = result_of (Run D (pre ++ [PoliciesCn policies]) s).
Proof.
  unfold Run, bind, get_config, call_err. simpl.
  destruct (api_NewClient D (Region (Nomad (config s))) (Address (Nomad (config s))) (world s))
    as [w [e |]]; [split; reflexivity |].
  destruct (loadPlugins_run (with_world s w)) as (s1 & t1 & r & -> & _).
  destruct r as [e |]; [split; reflexivity |].
  pose proof (RunLoop_same_set_twice_after pre ∅ policies s1) as Hsame.
  destruct (RunLoop D ∅ (pre ++ [PoliciesCn policies; PoliciesCn policies]) s1)
    as [[s2 t2] r2].
  destruct (RunLoop D ∅ (pre ++ [PoliciesCn policies]) s1) as [[s3 t3] r3].
  exact Hsame.
Qed.

(** *** The start of [Run] against the words of the specification *)

Lemma loadBlocks_refines {I : Type} (k : Kind) (key what : string) (mgr : Manager W I)
      (setConfig : I -> Cfg -> W -> W * option error) (dir : string)
      (blocks : list PluginBlock) (s : State W) :
  result_of (loadBlocks D k key what mgr setConfig dir blocks s)
  = Ok (snd (spec_first_load_error D key mgr setConfig dir blocks (world s))) /\
  world (state_of (loadBlocks D k key what mgr setConfig dir blocks s))
  = fst (spec_first_load_error D key mgr setConfig dir blocks (world s)).
Proof.
  revert s. induction blocks as [| block blocks IH]; intros s.
  - split; reflexivity.
  - cbn [loadBlocks spec_first_load_error]. unfold_steps.
    next_call as [e |]; [split; reflexivity |].
    next_call as [e | plugin]; [split; reflexivity |].
    next_call as [e |]; [split; reflexivity |].
    match goal with
    | |- context [loadBlocks D k key what mgr setConfig dir blocks ?s'] =>
        specialize (IH s');
        destruct (loadBlocks D k key what mgr setConfig dir blocks s') as [[s1 t1] r1]
    end.
    exact IH.
Qed.

(** The load pass returns the first error of the specification's load
    pass; it starts no monitor, cancels no context and leaves the
    ScanInterval of the configuration as it was. *)
Lemma loadPlugins_refines (s : State W) :
  exists s1 t1,
    loadPlugins D s = (s1, t1, Ok (snd (spec_load_pass D (config s) (world s)))) /\
    ScanInterval (config s1) = ScanInterval (config s) /\
    ctx_cancelled s1 = ctx_cancelled s /\
    goroutines s1 = goroutines s.
Proof.
  unfold spec_load_pass, loadPlugins, loadAPMPlugins, loadTargetPlugins,
    loadStrategyPlugins, localNomadAPM, localNomadTarget, localNomadConfig.
  unfold bind, get_config, set_config, ret. simpl.
  match goal with
  | |- context [loadBlocks D ?k ?key ?what ?mgr ?sc ?dir ?blocks ?s'] =>
      destruct (loadBlocks_refines k key what mgr sc dir blocks s') as [Hr1 Hw1];
      destruct (loadBlocks_runtime k key what mgr sc dir blocks s') as [Hg1 Hc1];
      destruct (loadBlocks_run k key what mgr sc dir blocks s')
        as (s1 & t1 & r1 & Heq1 & Hcfg1 & _);
      rewrite Heq1 in Hr1, Hw1, Hg1, Hc1 |- *
  end.
  unfold result_of, state_of in Hr1, Hw1, Hg1, Hc1. simpl in Hr1, Hw1, Hg1, Hc1, Hcfg1.
  injection Hr1 as Hr1.
  match type of Hr1 with
  | _ = snd ?spec => destruct spec as [w1 a1]
  end.
  simpl in Hr1, Hw1. subst r1 w1. destruct a1 as [e |]; simpl.
  { exists s1. eexists. split; [reflexivity |]. rewrite Hcfg1. repeat split; assumption. }
  rewrite Hcfg1. simpl.
  match goal with
  | |- context [loadBlocks D ?k ?key ?what ?mgr ?sc ?dir ?blocks ?s'] =>
      destruct (loadBlocks_refines k key what mgr sc dir blocks s') as [Hr2 Hw2];
      destruct (loadBlocks_runtime k key what mgr sc dir blocks s') as [Hg2 Hc2];
      destruct (loadBlocks_run k key what mgr sc dir blocks s')
        as (s2 & t2 & r2 & Heq2 & Hcfg2 & _);
      rewrite Heq2 in Hr2, Hw2, Hg2, Hc2 |- *
  end.
  unfold result_of, state_of in Hr2, Hw2, Hg2, Hc2. simpl in Hr2, Hw2, Hg2, Hc2, Hcfg2.
  injection Hr2 as Hr2.
  match type of Hr2 with
  | _ = snd ?spec => destruct spec as [w2 a2]
  end.
  simpl in Hr2, Hw2. subst r2 w2. destruct a2 as [e |]; simpl.
  { exists s2. eexists. split; [reflexivity |]. rewrite Hcfg2, Hg2, Hc2. repeat split; assumption. }
  rewrite Hcfg2. simpl.
  match goal with
  | |- context [loadBlocks D ?k ?key ?what ?mgr ?sc ?dir ?blocks ?s'] =>
      destruct (loadBlocks_refines k key what mgr sc dir blocks s') as [Hr3 Hw3];
      destruct (loadBlocks_runtime k key what mgr sc dir blocks s') as [Hg3 Hc3];
      destruct (loadBlocks_run k key what mgr sc dir blocks s')
        as (s3 & t3 & r3 & Heq3 & Hcfg3 & _);
      rewrite Heq3 in Hr3, Hw3, Hg3, Hc3 |- *
  end.
  unfold result_of, state_of in Hr3, Hw3, Hg3, Hc3. simpl in Hr3, Hw3, Hg3, Hc3, Hcfg3.
  injection Hr3 as Hr3. subst r3.
  exists s3. eexists. split.
  - destruct (snd (spec_first_load_error D "strategy" (strategyManager D) str_SetConfig
                     (PluginDir (config s)) (Strategies (config s)) (world s2)))
      as [e |]; reflexivity.
  - rewrite Hcfg3, Hcfg2, Hg3, Hc3, Hg2, Hc2. repeat split; assumption.
Qed.

(** [Run] returns the error the specification gives for its start, and
    when there is none it goes on as its loop does, from an empty
    [policyMonitors], having started no monitor and cancelled no
    context. *)
Lemma Run_startup (s : State W) :
  match snd (spec_startup D (config s) (world s)) with
  | Some msg => forall sel, result_of (Run D sel s) = Ok (Returns (Some msg))
  | None =>
      exists s0 t0,
        (forall sel, Run D sel s = after t0 (RunLoop D ∅ sel s0)) /\
        ScanInterval (config s0) = ScanInterval (config s) /\
        ctx_cancelled s0 = ctx_cancelled s /\
        goroutines s0 = goroutines s
  end.
Proof.
  unfold spec_startup, Run. unfold bind, get_config, call_err, ret, result_of. simpl.
  destruct (api_NewClient D (Region (Nomad (config s))) (Address (Nomad (config s))) (world s))
    as [w [e |]]; simpl; [reflexivity |].
  destruct (loadPlugins_refines (with_world s w)) as (s1 & t1 & Heq & Hscan & Hc & Hg).
  change (config (with_world s w)) with (config s) in Heq.
  change (world (with_world s w)) with w in Heq.
  simpl in Hscan, Hc, Hg. rewrite Heq.
  destruct (spec_load_pass D (config s) w) as [w1 [e |]]; simpl; [reflexivity |].
  exists s1, (ECall (CNewClient (Region (Nomad (config s))) (Address (Nomad (config s))))
                    RNil :: t1).
  split; [| repeat split; assumption].
  intros sel. unfold after, state_of, trace_of, result_of.
  destruct (RunLoop D ∅ sel s1) as [[s4 t4] r4]. simpl. reflexivity.
Qed.

(** *** What the monitors leave of the state *)

Lemma same_runtime_refl (s : State W) : same_runtime s s.
Proof. repeat split. Qed.

Lemma same_runtime_trans (s s1 s2 : State W) :
  same_runtime s s1 -> same_runtime s1 s2 -> same_runtime s s2.
Proof.
  intros (H1 & H2 & H3 & H4) (H1' & H2' & H3' & H4').
  repeat split; congruence.
Qed.

Lemma same_runtime_with_world (s : State W) (w : W) : same_runtime s (with_world s w).
Proof. repeat split. Qed.

Lemma scaleTarget_runtime (target : TargetPlugin W) (p : Policy) (actions : list Action)
      (s : State W) :
  same_runtime s (state_of (scaleTarget (Value:=Value) target p actions s)).
Proof.
  revert s. induction actions as [| a actions IH]; intros s; [apply same_runtime_refl |].
  cbn [scaleTarget]. unfold_steps. next_call as [e |]; [repeat split |].
  match goal with
  | |- context [scaleTarget target p actions ?s'] =>
      specialize (IH s'); destruct (scaleTarget target p actions s') as [[s2 t2] r2]
  end.
  exact IH.
Qed.

(** An evaluation cycle changes nothing of the state but the world. *)
Lemma handlePolicy_runtime (p : Policy) (s : State W) :
  same_runtime s (state_of (handlePolicy D p s)).
Proof.
  unfold handlePolicy. unfold_steps.
  next_call as [e | target]; [repeat split |].
  next_call as [e | apm]; [repeat split |].
  next_call as [e | strategy]; [repeat split |].
  next_call as [e | count]; [repeat split |].
  next_call as [e | value]; [repeat split |].
  next_call as [e | results]; [repeat split |].
  destruct (Actions results) as [| action actions] eqn:Hactions; [repeat split |].
  match goal with
  | |- context [scaleTarget ?t p (action :: actions) ?s'] =>
      pose proof (scaleTarget_runtime t p (action :: actions) s') as Hscale;
      destruct (scaleTarget t p (action :: actions) s') as [[s2 t2] r2]
  end.
  exact Hscale.
Qed.

(** One turn of the loop of a monitor: it changes nothing of the state but
    the world; it returns only on the end of its context, and panics only
    in [time.NewTicker], on a fetched policy whose period no ticker
    accepts. *)
Lemma monitorLoop_one (id : string) (defaultSleep ticker : Duration) (r : MonitorSelect)
      (s : State W) :
  same_runtime s (state_of (monitorLoop D id defaultSleep ticker [r] s)) /\
  match result_of (monitorLoop D id defaultSleep ticker [r] s) with
  | Ok (Returns _) => r = CtxDone
  | Ok (Blocked _) => r = TickerC
  | Panic msg =>
      msg = "non-positive interval for NewTicker" /\
      exists w p, ps_Get D id (world s) = (w, inr p) /\ sleepDuration defaultSleep p <= 0
  end.
Proof.
  destruct r.
  - cbn [monitorLoop]. unfold_steps. repeat split.
  - cbn [monitorLoop]. unfold_steps. next_call as [e | p]; [repeat split |].
    unfold time_NewTicker.
    match goal with
    | |- context [if ?b then panic _ else _] => destruct b eqn:Hb
    end.
    + simpl. split; [repeat split |]. split; [reflexivity |].
      exists w, p. split; [reflexivity |]. apply Z.leb_le in Hb. exact Hb.
    + simpl.
      match goal with
      | |- context [handlePolicy D p ?s'] =>
          pose proof (handlePolicy_runtime p s') as Hrt;
          destruct (handlePolicy_cycle p s') as (c & _ & _ & Hres);
          unfold result_of, state_of in Hres, Hrt;
          destruct (handlePolicy D p s') as [[s2 t2] r2]
      end.
      simpl in Hres, Hrt. subst r2. simpl. split; [exact Hrt | reflexivity].
Qed.

(** The start of a monitor: it changes nothing of the state; it is then
    blocked in its loop with a positive default period, or has panicked in
    [time.NewTicker] on a ScanInterval that parses to a period no ticker
    accepts. *)
Lemma monitorPolicy_one (id : string) (s : State W) :
  state_of (monitorPolicy D id [] s) = s /\
  match result_of (monitorPolicy D id [] s) with
  | Ok (Returns _) => False
  | Ok (Blocked ticker) => 0 < ticker
  | Panic msg =>
      msg = "non-positive interval for NewTicker" /\ ~ scan_interval_ok D (config s)
  end.
Proof.
  unfold monitorPolicy, scan_interval_ok. unfold_steps. unfold time_NewTicker.
  destruct (time_ParseDuration D (ScanInterval (config s))) as [e | d]; simpl.
  - split; reflexivity.
  - destruct (Z.leb_spec d 0) as [Hle | Hlt]; simpl.
    + split; [reflexivity |]. split; [reflexivity | lia].
    + split; [reflexivity | exact Hlt].
Qed.

(** *** What the loop of [Run] leaves of the configuration *)




(** *** The process: [Run] and its monitors *)




Lemma run_steps_stopped (st : Status (W:=W)) (schedule : list Step) :
  match st with Looping _ => False | _ => True end ->
  run_steps D st schedule = (st, []).
Proof.
  destruct st, schedule; simpl; intros H; try reflexivity; contradiction.
Qed.



(** The start of the process is the start-up of the specification: its
    error is what [Run] returns, and without one the process is in the loop
    of [Run], with no monitor yet. *)
Lemma process_startup (schedule : list Step) (s : State W) :
  match snd (spec_startup D (config s) (world s)) with
  | Some msg => exists s1 t1, process D schedule s = (Exited (Some msg) s1, t1)
  | None =>
      exists s0 t0,
        process D schedule s
        = (fst (run_steps D (Looping {| proc_state := s0; proc_policyMonitors := ∅;
                                        proc_monitors := ∅; proc_ctx_done := false |})
                          schedule),
           t0 ++ snd (run_steps D (Looping {| proc_state := s0; proc_policyMonitors := ∅;
                                              proc_monitors := ∅; proc_ctx_done := false |})
                                schedule)) /\
        ScanInterval (config s0) = ScanInterval (config s) /\
        ctx_cancelled s0 = ctx_cancelled s /\ goroutines s0 = goroutines s
  end.
Proof.
  pose proof (Run_startup s) as Hrun. unfold process.
  destruct (snd (spec_startup D (config s) (world s))) as [msg |].
  - specialize (Hrun []). destruct (Run D [] s) as [[s1 t1] r]. simpl in Hrun. subst r.
    exists s1, t1. reflexivity.
  - destruct Hrun as (s0 & t0 & Hrun & Hscan & Hc & Hg).
    exists s0, t0. rewrite (Hrun []). cbn [RunLoop]. unfold after, ret. simpl.
    rewrite app_nil_r.
    destruct (run_steps D _ schedule) as [st t]. simpl.
    split; [reflexivity |]. split; [exact Hscan |]. split; [exact Hc | exact Hg].
Qed.


(** *** The monitors of the process and the context of [Run] *)

Lemma supervised_cancel_children (m : gmap string CancelFunc) (s : State W) :
  supervised m s -> supervised m (cancel_children s).
Proof.
  intros (H1 & H2 & H3 & H4 & H5). unfold supervised, cancel_children. simpl.
  split; [exact H1 |]. split; [exact H2 |]. split; [exact H3 |]. split; [| exact H5].
  intros ctx Hin. apply elem_of_union in Hin as [Hin | Hin]; [| exact (H4 ctx Hin)].
  apply elem_of_list_to_set in Hin. apply elem_of_seq in Hin. lia.
Qed.

Lemma supervised_same_runtime (m : gmap string CancelFunc) (s s1 : State W) :
  same_runtime s s1 -> supervised m s -> supervised m s1.
Proof.
  intros (_ & Hn & Hc & Hg) Hsup. unfold supervised in *. rewrite Hn, Hc, Hg. exact Hsup.
Qed.

(** Once the context of [Run] is done, no monitor has a context that is
    not. *)
Lemma liveMonitors_cancel_children (m : gmap string CancelFunc) (s : State W) :
  supervised m s -> liveMonitors (cancel_children s) = [].
Proof.
  intros (H1 & _ & H3 & _).
  match goal with
  | |- ?live = [] =>
      destruct live as [| id l] eqn:Hlive; [reflexivity |];
      assert (Hin : id ∈ live) by (rewrite Hlive; left)
  end.
  apply elem_of_liveMonitors in Hin as (ctx & Hin & Hnot). simpl in Hin, Hnot.
  exfalso. apply Hnot. apply elem_of_union. left.
  apply elem_of_list_to_set. apply elem_of_seq.
  apply H1 in Hin. apply H3 in Hin. lia.
Qed.

(** The step of the process in which [Run] receives a set of policies. *)
Lemma step_policies (p : Process (W:=W)) (policies : list Policy) :
  exists s1 t1 m1 ms,
    startMonitors (Value:=Value) policies (proc_policyMonitors p) (proc_state p)
    = (s1, t1, Ok m1) /\
    fst (step D p (RunReceives (PoliciesCn policies)))
    = Looping {| proc_state :=
                   if proc_ctx_done p
                   then cancel_children
                          (state_of (cancelOld (Value:=Value) policies (map_to_list m1) s1))
                   else state_of (cancelOld (Value:=Value) policies (map_to_list m1) s1);
                 proc_policyMonitors := m1;
                 proc_monitors := ms;
                 proc_ctx_done := proc_ctx_done p |}.
Proof.
  destruct (RunLoop_policies (proc_policyMonitors p) policies [] (proc_state p))
    as (s1 & t1 & m1 & Hstart & Heq).
  exists s1, t1, m1. cbn [step is_RunCtxDone andb]. rewrite Heq.
  cbn [RunLoop]. unfold after, ret, state_of, trace_of, result_of. cbn [fst snd].
  eexists. split; [exact Hstart | reflexivity].
Qed.

(** A step of the process keeps [policyMonitors] and the monitors in
    step, and adds to the map only IDs of the set received. *)
Lemma step_supervised (p : Process (W:=W)) (x : Step) (known : list string) :
  supervised (proc_policyMonitors p) (proc_state p) ->
  (forall id, is_Some (proc_policyMonitors p !! id) -> id ∈ known) ->
  match fst (step D p x) with
  | Looping p' =>
      supervised (proc_policyMonitors p') (proc_state p') /\
      (forall id, is_Some (proc_policyMonitors p' !! id) -> id ∈ known ++ seen_in [x])
  | _ => True
  end.
Proof.
  intros Hsup Hknown.
  assert (Hsame : forall id, is_Some (proc_policyMonitors p !! id) -> id ∈ known ++ []).
  { intros id H. rewrite app_nil_r. exact (Hknown id H). }
  destruct x as [| [policies | err |] | ctx | ctx r].
  - simpl. split; [apply supervised_cancel_children; exact Hsup | exact Hsame].
  - destruct (step_policies p policies) as (s1 & t1 & m1 & ms & Hstart & ->).
    destruct (reconcile_supervised _ _ _ _ _ _ Hsup Hstart) as (Hsup1 & _ & _ & Hold).
    cbn [proc_state proc_policyMonitors]. split.
    + destruct (proc_ctx_done p); [apply supervised_cancel_children |]; exact Hsup1.
    + intros id Hsome. simpl. rewrite app_nil_r. apply elem_of_app.
      destruct (decide (id ∈ map ID policies)) as [Hin | Hnot]; [right; exact Hin |].
      left. apply Hknown. rewrite <- (Hold id Hnot). exact Hsome.
  - cbn [step is_RunCtxDone andb RunLoop]. unfold bind, logger_Error, ret. simpl.
    split; [| exact Hsame].
    destruct (proc_ctx_done p); [apply supervised_cancel_children |]; exact Hsup.
  - cbn [step]. destruct (is_RunCtxDone RunCtxDone && negb (proc_ctx_done p)).
    + simpl. split; [exact Hsup | exact Hsame].
    + destruct (RunLoop_run [RunCtxDone] (proc_policyMonitors p) (proc_state p))
        as (s1 & t1 & out & Heq & _ & Hout).
      rewrite Heq. simpl in Hout. subst out. exact I.
  - cbn [step]. destruct (proc_monitors p !! ctx) as [[id | id d t] |];
      try (simpl; split; [exact Hsup | exact Hsame]).
    destruct (monitorPolicy_one id (proc_state p)) as [Hst _].
    destruct (monitorPolicy D id [] (proc_state p)) as [[s1 t1] [[u | ticker] | msg]];
      unfold state_of in Hst; simpl in Hst |- *; try exact I;
      subst s1; (split; [exact Hsup | exact Hsame]).
  - cbn [step]. destruct (proc_monitors p !! ctx) as [[id | id d t] |];
      try (simpl; split; [exact Hsup | exact Hsame]).
    destruct (is_CtxDone r && negb (bool_decide (ctx ∈ ctx_cancelled (proc_state p))));
      [simpl; split; [exact Hsup | exact Hsame] |].
    destruct (monitorLoop_one id d t r (proc_state p)) as [Hrt _].
    destruct (monitorLoop D id d t [r] (proc_state p)) as [[s1 t1] [[u | ticker] | msg]];
      unfold state_of in Hrt; simpl in Hrt |- *; try exact I;
      (split; [exact (supervised_same_runtime _ _ _ Hrt Hsup) | exact Hsame]).
Qed.

Lemma run_steps_supervised (schedule : list Step) (p : Process (W:=W)) (known : list string) :
  supervised (proc_policyMonitors p) (proc_state p) ->
  (forall id, is_Some (proc_policyMonitors p !! id) -> id ∈ known) ->
  match fst (run_steps D (Looping p) schedule) with
  | Looping p' =>
      supervised (proc_policyMonitors p') (proc_state p') /\
      (forall id, is_Some (proc_policyMonitors p' !! id) -> id ∈ known ++ seen_in schedule)
  | _ => True
  end.
Proof.
  revert p known. induction schedule as [| x rest IH]; intros p known Hsup Hknown.
  - simpl. split; [exact Hsup |]. intros id H. rewrite app_nil_r. exact (Hknown id H).
  - cbn [run_steps]. pose proof (step_supervised p x known Hsup Hknown) as Hstep.
    destruct (step D p x) as [[p' | r s' | msg] t1]; cbn [fst] in Hstep.
    + destruct Hstep as [Hsup' Hknown'].
      specialize (IH p' _ Hsup' Hknown').
      destruct (run_steps D (Looping p') rest) as [[p2 | r s2 | msg] t2]; cbn [fst] in IH |- *;
        try exact I.
      destruct IH as [Hsup2 Hknown2]. split; [exact Hsup2 |].
      intros id H. specialize (Hknown2 id H).
      unfold seen_in in Hknown2 |- *. simpl in Hknown2 |- *.
      rewrite app_nil_r in Hknown2. rewrite <- app_assoc in Hknown2. exact Hknown2.
    + rewrite run_steps_stopped by exact I. exact I.
    + rewrite run_steps_stopped by exact I. exact I.
Qed.

Lemma run_steps_app (a b : list Step) (st : Status (W:=W)) :
  fst (run_steps D st (a ++ b)) = fst (run_steps D (fst (run_steps D st a)) b).
Proof.
  revert st. induction a as [| x a IH]; intros st; [reflexivity |].
  destruct st as [p | r s | msg].
  - cbn [app run_steps]. destruct (step D p x) as [st1 t1].
    specialize (IH st1).
    destruct (run_steps D st1 (a ++ b)) as [st2 t2].
    destruct (run_steps D st1 a) as [st3 t3]. exact IH.
  - cbn [app run_steps fst]. rewrite run_steps_stopped by exact I. reflexivity.
  - cbn [app run_steps fst]. rewrite run_steps_stopped by exact I. reflexivity.
Qed.

(** X11. In the process of [Run] and its monitors, where the end of the
    context of [Run] ends the contexts made from it: when [Run] goes through
    a set that has a policy whose ID was in none of the sets received
    before, and its context is not done, the policy gets a monitor whose
    context is not cancelled; when its context is done, no monitor has a
    context that is not, the new ones included. *)
Theorem process_new_policy_gets_a_live_monitor (schedule : list Step)
        (policies : list Policy) (s : State W) (p : Process (W:=W))
        (tr : list (Event Value)) (id : string) :
  fresh s ->
  id ∉ seen_in schedule ->
  id ∈ map ID policies ->
  process D (schedule ++ [RunReceives (PoliciesCn policies)]) s = (Looping p, tr) ->
  if proc_ctx_done p then liveMonitors (proc_state p) = []
  else id ∈ liveMonitors (proc_state p).
Proof.
  intros [Hg Hc] Hseen Hin Hproc.
  pose proof (process_startup (schedule ++ [RunReceives (PoliciesCn policies)]) s) as Hstart.
  destruct (snd (spec_startup D (config s) (world s))) as [msg |].
  { destruct Hstart as (s1 & t1 & Heq). rewrite Heq in Hproc. discriminate. }
  destruct Hstart as (s0 & t0 & Heq & _ & Hc0 & Hg0).
  rewrite Heq in Hproc. injection Hproc as Hst _. clear Heq.
  rewrite run_steps_app in Hst.
  assert (Hfresh0 : fresh s0) by (split; congruence).
  pose proof (run_steps_supervised schedule
                {| proc_state := s0; proc_policyMonitors := ∅;
                   proc_monitors := ∅; proc_ctx_done := false |} []
                (fresh_supervised s0 Hfresh0)) as Hinv.
  cbn [proc_state proc_policyMonitors] in Hinv.
  assert (Hempty : forall id' : string,
             is_Some ((∅ : gmap string CancelFunc) !! id') -> id' ∈ ([] : list string)).
  { intros id' [c Hsome]. rewrite lookup_empty in Hsome. discriminate. }
  specialize (Hinv Hempty). clear Hempty.
  match type of Hinv with
  | match ?st with _ => _ end => destruct st as [p0 | r s' | msg]
  end.
  2, 3: simpl in Hst; discriminate Hst.
  destruct Hinv as [Hsup Hknown].
  cbn [run_steps] in Hst.
  destruct (step_policies p0 policies) as (s1 & t1 & m1 & ms & Hstartm & Hstep).
  destruct (step D p0 (RunReceives (PoliciesCn policies))) as [st1 t1'].
  cbn [fst] in Hstep, Hst. rewrite Hstep in Hst. injection Hst as <-.
  cbn [proc_ctx_done proc_state].
  destruct (reconcile_supervised _ _ _ _ _ _ Hsup Hstartm) as (Hsup1 & _ & Hnew & _).
  destruct (proc_ctx_done p0).
  - exact (liveMonitors_cancel_children _ _ Hsup1).
  - apply Hnew; [| exact Hin].
    destruct (proc_policyMonitors p0 !! id) as [c |] eqn:Hlook; [| reflexivity].
    exfalso. apply Hseen. apply (Hknown id). rewrite Hlook. eauto.
Qed.

End Properties.

(** ** The agent on the concrete world *)

Import fixtures.

(** C1 (what the loop of [Run] does). With the policy sets [p1], then the
    empty set, then [p1] again: after the first set the monitor of p1 is
    live; after the third set no monitor is live although p1 is in the set,
    because the entry of p1 stayed in [policyMonitors] with the handle of
    the context cancelled at the second set, and no new monitor was
    started. *)
Theorem C1_readded_policy_is_not_monitored :
  let D := exDeps allKnown [scaleOut] [] None in
  let first := Run D [PoliciesCn [p1]] (initial exConfig) in
  let third := Run D [PoliciesCn [p1]; PoliciesCn []; PoliciesCn [p1]] (initial exConfig) in
  liveMonitors (state_of first) = ["p1"] /\
  liveMonitors (state_of third) = [] /\
  goroutines (state_of third) = [(0%nat, "p1")] /\
  result_of third = Ok (Blocked (<[ "p1" := 0%nat ]> ∅)) /\
  ctx_cancelled (state_of third) = {[ 0%nat ]}.
Proof.
  vm_compute. repeat split.
Qed.




Lemma C4_stage_failure_is_isolated_witness :
  let D := exDeps allKnown [tooFar] [inr p1] None in
  let cycle := handlePolicy D p1 (with_world (initial exConfig) 1%nat) in
  ps_Get D "p1" (world (initial exConfig)) = (1%nat, inr p1) /\
  0 < sleepDuration (10 * Second) p1 /\
  result_of cycle = Ok tt /\
  (exists pre msg,
      trace_of cycle
      = pre ++ [ECall (CScale tooFar jobWeb) (RErr "count above the maximum");
                ELog Error msg (Some "count above the maximum")]) /\
  (exists r tl,
      trace_of (monitorLoop D "p1" (10 * Second) (sleepDuration (10 * Second) p1) [TickerC]
                            (state_of cycle))
      = ECall (CGet "p1") r :: tl).
Proof.
  intros D cycle.
  assert (Hin : In (ECall (CScale tooFar jobWeb) (RErr "count above the maximum"))
                   (trace_of cycle)).
  { vm_compute. repeat (first [left; reflexivity | right]). }
  destruct (C4_stage_failure_is_isolated D "p1" (10 * Second) (10 * Second) [TickerC]
              (initial exConfig) 1%nat p1 eq_refl eq_refl)
    as (Hreturns & Hlogged & _ & Hnext).
  split; [reflexivity |]. split; [reflexivity |].
  split; [apply Hreturns |].
  split; [exact (Hlogged p1 _ _ _ Hin) | exact (Hnext [] eq_refl)].
Defined.

Lemma C5_scale_in_order_until_failure_witness :
  let D := exDeps allKnown [scaleOut; tooFar; scaleOut] [] None in
  let tr := trace_of (handlePolicy D p1 (initial exConfig)) in
  In (ECall (CRun (request p1 2 80)) (RActions [scaleOut; tooFar; scaleOut])) tr /\
  (scale_calls tr = map (fun a => (a, jobWeb, RNil)) [scaleOut; tooFar; scaleOut]
   \/ exists done a rest e,
       [scaleOut; tooFar; scaleOut] = done ++ a :: rest /\
       scale_calls tr = map (fun a => (a, jobWeb, RNil)) done ++ [(a, jobWeb, RErr e)] /\
       last tr = Some (ELog Error "failed to scale target" (Some e))).
Proof.
  intros D tr.
  assert (Hin : In (ECall (CRun (request p1 2 80)) (RActions [scaleOut; tooFar; scaleOut])) tr).
  { vm_compute. repeat (first [left; reflexivity | right]). }
  split; [exact Hin |].
  exact (C5_scale_in_order_until_failure D p1 (initial exConfig) (request p1 2 80)
           [scaleOut; tooFar; scaleOut] Hin).
Defined.

Lemma C6_no_action_is_a_no_op_witness :
  let D := exDeps allKnown [] [] None in
  let tr := trace_of (handlePolicy D p1 (initial exConfig)) in
  In (ECall (CRun (request p1 2 80)) (RActions [])) tr /\
  scale_calls tr = [].
Proof.
  intros D tr.
  assert (Hin : In (ECall (CRun (request p1 2 80)) (RActions [])) tr).
  { vm_compute. repeat (first [left; reflexivity | right]). }
  split; [exact Hin |].
  exact (proj1 (C6_no_action_is_a_no_op D p1 (initial exConfig) (request p1 2 80) Hin)).
Defined.

(** C7: a fetched policy whose Interval is negative is not waited for: the
    monitor panics when it makes the ticker. *)
Lemma C7_negative_interval_panics :
  let p := examplePolicy "local-nomad" (- Second) in
  let D := exDeps allKnown [scaleOut] [inr p] None in
  ps_Get D "p1" (world (initial exConfig)) = (1%nat, inr p) /\
  Interval p <> 0 /\
  result_of (monitorPolicy D "p1" [TickerC] (initial exConfig))
  = Panic "non-positive interval for NewTicker" /\
  result_of (monitorPolicy D "p1" [TickerC] (initial exConfig)) <> Ok (Blocked (Interval p)).
Proof.
  intros p D. split; [reflexivity |]. split; [discriminate |].
  split; [vm_compute; reflexivity | vm_compute; discriminate].
Qed.

Lemma C7_next_wait_uses_fetched_interval_witness :
  let p := examplePolicy "local-nomad" Second in
  let D := exDeps allKnown [scaleOut] [inr p] None in
  ps_Get D "p1" (world (initial exConfig)) = (1%nat, inr p) /\
  0 < 10 * Second /\
  0 <= Interval p /\
  result_of (monitorLoop D "p1" (10 * Second) (10 * Second) [TickerC] (initial exConfig))
  = Ok (Blocked Second).
Proof.
  intros p D.
  assert (Hinterval : 0 <= Interval p) by discriminate.
  split; [reflexivity |]. split; [reflexivity |]. split; [exact Hinterval |].
  exact (proj1 (C7_next_wait_uses_fetched_interval D "p1" (10 * Second) (10 * Second) []
                  (initial exConfig) 1%nat p eq_refl eq_refl Hinterval)).
Defined.

Lemma C8_failed_fetch_skips_the_cycle_witness :
  let D := exDeps allKnown [scaleOut] [inl "connection refused"] None in
  ps_Get D "p1" (world (initial exConfig)) = (1%nat, inl "connection refused") /\
  result_of (monitorLoop D "p1" (10 * Second) (10 * Second) [TickerC] (initial exConfig))
  = Ok (Blocked (10 * Second)).
Proof.
  intros D. split; [reflexivity |].
  exact (proj2 (C8_failed_fetch_skips_the_cycle D "p1" (10 * Second) (10 * Second) []
                  (initial exConfig) 1%nat "connection refused" eq_refl)).
Defined.

(** ** Runs of the concrete world *)

(** The end-to-end example: Count returns 2, Query 80, Run one action with
    Count 4; Scale is called once, with this action and the configuration
    of the target. *)
Example end_to_end_scales_once :
  scale_calls (trace_of (handlePolicy (exDeps allKnown [scaleOut] [] None) p1
                                      (initial exConfig)))
  = [(scaleOut, jobWeb, RNil)].
Proof. vm_compute. reflexivity. Qed.

(** A metric source that cannot be dispensed ends the cycle before any
    Count. *)
Example unknown_source_makes_no_count :
  stages (trace_of (handlePolicy (exDeps allKnown [scaleOut] [] None)
                                 (examplePolicy "datadog" 0) (initial exConfig)))
  = [SDispenseTarget; SDispenseAPM].
Proof. vm_compute. reflexivity. Qed.

(** The second of three actions fails to scale: the third is not tried. *)
Example failed_scale_stops_the_actions :
  scale_calls (trace_of (handlePolicy (exDeps allKnown [scaleOut; tooFar; scaleOut] [] None) p1
                                      (initial exConfig)))
  = [(scaleOut, jobWeb, RNil); (tooFar, jobWeb, RErr "count above the maximum")].
Proof. vm_compute. reflexivity. Qed.

(** Interval hot update: the policy is fetched with an interval of 5s, then
    of 1s; the monitor, started once, waits next with a period of 1s. *)
Example interval_hot_update :
  let D := exDeps allKnown []
                  [inr (examplePolicy "local-nomad" (5 * Second));
                   inr (examplePolicy "local-nomad" (1 * Second))] None in
  let o := monitorPolicy D "p1" [TickerC; TickerC] (initial exConfig) in
  result_of o = Ok (Blocked (1 * Second)) /\
  omap (fun ev => match ev with
                  | ECall (CNewTicker d) _ => Some d
                  | _ => None
                  end) (trace_of o)
  = [10 * Second; 5 * Second; 1 * Second] /\
  omap (fun ev => match ev with
                  | ELog Info msg _ =>
                      if String.eqb msg "start monitoring policy" then Some msg else None
                  | _ => None
                  end) (trace_of o)
  = ["start monitoring policy"].
Proof. vm_compute. repeat split. Qed.

(** A failed Scale on one tick does not keep the next tick from fetching
    and evaluating the policy. *)
Example failed_cycle_then_next_tick :
  let D := exDeps allKnown [tooFar] [inr p1; inr p1] None in
  let o := monitorPolicy D "p1" [TickerC; TickerC] (initial exConfig) in
  result_of o = Ok (Blocked (10 * Second)) /\
  stages (trace_of o)
  = [SDispenseTarget; SDispenseAPM; SDispenseStrategy; SCount; SQuery; SRun; SScale;
     SDispenseTarget; SDispenseAPM; SDispenseStrategy; SCount; SQuery; SRun; SScale].
Proof. vm_compute. repeat split. Qed.

(** A failed register of a configured plugin stops [Run] at its start. *)
Example missing_driver_stops_Run :
  let cfg :=
    {| Nomad := Nomad exConfig;
       APMs := [ {| Name := "prometheus"; Driver := "missing"; Config := ∅ |} ];
       Targets := []; Strategies := [];
       PluginDir := "plugins"; ScanInterval := "10s" |} in
  result_of (Run (exDeps allKnown [] [] None) [PoliciesCn [p1]; RunCtxDone] (initial cfg))
  = Ok (Returns (Some "failed to load plugins: executable not found")).
Proof. vm_compute. reflexivity. Qed.

(** With a start that succeeds, [Run] goes through policy sets and feed
    errors and returns nil when its context is done. *)
Example Run_returns_nil_on_done :
  result_of (Run (exDeps allKnown [] [] None)
                 [PoliciesCn [p1]; ErrCn "connection refused"; PoliciesCn []; RunCtxDone]
                 (initial exConfig))
  = Ok (Returns None).
Proof. vm_compute. reflexivity. Qed.

(** ** More runs of the concrete world *)

Lemma handlePolicy_request_from_count_and_query_witness :
  let D := exDeps allKnown [scaleOut] [] None in
  let tr := trace_of (handlePolicy D p1 (initial exConfig)) in
  In (ECall (CRun (request p1 2 80)) (RActions [scaleOut])) tr /\
  exists count value,
    In (ECall (CCount jobWeb) (RCount count)) tr /\
    In (ECall (CQuery "cpu") (RValue value)) tr /\
    request p1 2 80 = request p1 count value.
Proof.
  intros D tr.
  assert (Hin : In (ECall (CRun (request p1 2 80)) (RActions [scaleOut])) tr).
  { vm_compute. repeat (first [left; reflexivity | right]). }
  split; [exact Hin |].
  exact (handlePolicy_request_from_count_and_query D p1 (initial exConfig) _ _ Hin).
Defined.

Lemma handlePolicy_calls_follow_policy_witness :
  let D := exDeps allKnown [scaleOut] [] None in
  let tr := trace_of (handlePolicy D p2 (initial exConfig)) in
  In (ECall (CQuery "memory") (RValue 80)) tr /\
  (CQuery (Value:=Z) "memory" = CDispense KTarget "local-nomad" \/
   CQuery (Value:=Z) "memory" = CDispense KAPM "prometheus" \/
   CQuery (Value:=Z) "memory" = CDispense KStrategy "target-value" \/
   CQuery (Value:=Z) "memory" = CCount jobWeb \/
   CQuery (Value:=Z) "memory" = CQuery "memory" \/
   (exists req, CQuery (Value:=Z) "memory" = CRun req) \/
   (exists a, CQuery (Value:=Z) "memory" = CScale a jobWeb)).
Proof.
  intros D tr.
  assert (Hin : In (ECall (CQuery "memory") (RValue 80)) tr).
  { vm_compute. repeat (first [left; reflexivity | right]). }
  split; [exact Hin |].
  exact (handlePolicy_calls_follow_policy D p2 (initial exConfig) _ _ Hin).
Defined.

Lemma monitorLoop_tick_accounting_witness :
  let D := exDeps allKnown [tooFar] [inr p1; inl "connection refused"; inr p1] None in
  let o := monitorLoop D "p1" (10 * Second) (10 * Second)
                       [TickerC; TickerC; TickerC; CtxDone; TickerC] (initial exConfig) in
  result_of o = Ok (Returns tt) /\
  count_events is_get (trace_of o) = 3%nat /\
  (count_events is_fetch_failure (trace_of o) + count_events starts_cycle (trace_of o))%nat
  = 3%nat /\
  monitor_done [TickerC; TickerC; TickerC; CtxDone; TickerC] = true.
Proof.
  intros D o.
  assert (Hres : result_of o = Ok (Returns tt)) by (vm_compute; reflexivity).
  split; [exact Hres |].
  exact (monitorLoop_tick_accounting D "p1" (10 * Second) (10 * Second) _ (initial exConfig)
           (Returns tt) Hres).
Defined.

Lemma monitorLoop_period_of_last_fetched_witness :
  let D := exDeps allKnown []
                  [inr (examplePolicy "local-nomad" (5 * Second)); inl "connection refused"]
                  None in
  let o := monitorLoop D "p1" (10 * Second) (10 * Second) [TickerC; TickerC]
                       (initial exConfig) in
  result_of o = Ok (Blocked (5 * Second)) /\
  5 * Second
  = (match last (fetched (trace_of o)) with
     | Some p => sleepDuration (10 * Second) p
     | None => 10 * Second
     end).
Proof.
  intros D o.
  assert (Hres : result_of o = Ok (Blocked (5 * Second))) by (vm_compute; reflexivity).
  split; [exact Hres |].
  exact (monitorLoop_period_of_last_fetched D "p1" (10 * Second) (10 * Second) _
           (initial exConfig) (5 * Second) Hres).
Defined.

Lemma loadPlugins_success_trace_witness :
  let D := exDeps allKnown [] [] None in
  result_of (loadPlugins D (initial exConfig)) = Ok None /\
  config (state_of (loadPlugins D (initial exConfig)))
  = appendTarget (appendAPM exConfig (localNomadAPM exConfig)) (localNomadTarget exConfig).
Proof.
  intros D.
  assert (Hres : result_of (loadPlugins D (initial exConfig)) = Ok None)
    by (vm_compute; reflexivity).
  split; [exact Hres |].
  exact (proj2 (loadPlugins_success_trace D (initial exConfig) Hres)).
Defined.

Lemma Run_live_monitors_are_in_the_last_set_witness :
  let D := exDeps allKnown [] [] None in
  let sel := [PoliciesCn [p1; p2]; ErrCn "connection refused"; PoliciesCn [p2]] in
  fresh (initial exConfig) /\
  Run D sel (initial exConfig)
  = (state_of (Run D sel (initial exConfig)), trace_of (Run D sel (initial exConfig)),
     Ok (Blocked (<[ "p1" := 0%nat ]> (<[ "p2" := 1%nat ]> ∅)))) /\
  forall id, id ∈ liveMonitors (state_of (Run D sel (initial exConfig))) -> id ∈ map ID [p2].
Proof.
  intros D sel.
  assert (Hfresh : fresh (initial exConfig)) by (split; reflexivity).
  assert (Hrun : Run D sel (initial exConfig)
                 = (state_of (Run D sel (initial exConfig)),
                    trace_of (Run D sel (initial exConfig)),
                    Ok (Blocked (<[ "p1" := 0%nat ]> (<[ "p2" := 1%nat ]> ∅)))))
    by (vm_compute; reflexivity).
  split; [exact Hfresh |]. split; [exact Hrun |].
  exact (Run_live_monitors_are_in_the_last_set D
           [PoliciesCn [p1; p2]; ErrCn "connection refused"] [p2]
           (initial exConfig) _ _ _ Hfresh Hrun).
Defined.

Lemma Run_one_monitor_per_policy_witness :
  let D := exDeps allKnown [] [] None in
  let sel := [PoliciesCn [p1; p2; p1]; PoliciesCn []; PoliciesCn [p2; p1]] in
  fresh (initial exConfig) /\
  NoDup (goroutines (state_of (Run D sel (initial exConfig)))).*2.
Proof.
  intros D sel.
  assert (Hfresh : fresh (initial exConfig)) by (split; reflexivity).
  split; [exact Hfresh |].
  exact (proj1 (Run_one_monitor_per_policy D sel (initial exConfig) Hfresh)).
Defined.

Lemma Run_returns_with_every_monitor_cancelled_witness :
  let D := exDeps allKnown [] [] None in
  let sel := [PoliciesCn [p1; p2]; RunCtxDone] in
  fresh (initial exConfig) /\
  result_of (Run D sel (initial exConfig)) = Ok (Returns None) /\
  goroutines (state_of (Run D sel (initial exConfig))) = [(0%nat, "p1"); (1%nat, "p2")] /\
  liveMonitors (state_of (Run D sel (initial exConfig))) = [].
Proof.
  intros D sel.
  assert (Hfresh : fresh (initial exConfig)) by (split; reflexivity).
  assert (Hres : result_of (Run D sel (initial exConfig)) = Ok (Returns None))
    by (vm_compute; reflexivity).
  split; [exact Hfresh |]. split; [exact Hres |]. split; [vm_compute; reflexivity |].
  exact (Run_returns_with_every_monitor_cancelled D sel (initial exConfig) None Hfresh Hres).
Defined.



Lemma process_new_policy_gets_a_live_monitor_witness :
  let D := exDeps allKnown [scaleOut] [inr p1] None in
  let schedule := [RunReceives (PoliciesCn [p1]); MonitorStarts 0; MonitorReceives 0 TickerC] in
  fresh (initial exConfig) /\
  ("p2" ∉ seen_in schedule) /\
  "p2" ∈ map ID [p1; p2] /\
  exists p tr,
    process D (schedule ++ [RunReceives (PoliciesCn [p1; p2])]) (initial exConfig)
    = (Looping p, tr) /\
    proc_ctx_done p = false /\
    "p2" ∈ liveMonitors (proc_state p).
Proof.
  intros D schedule.
  assert (Hfresh : fresh (initial exConfig)) by (split; reflexivity).
  assert (Hseen : "p2" ∉ seen_in schedule).
  { intros H. apply list_elem_of_singleton in H. discriminate H. }
  assert (Hin : "p2" ∈ map ID [p1; p2]) by (right; left).
  split; [exact Hfresh |]. split; [exact Hseen |]. split; [exact Hin |].
  destruct (process D (schedule ++ [RunReceives (PoliciesCn [p1; p2])]) (initial exConfig))
    as [[p | r s1 | msg] tr] eqn:Hproc.
  - assert (Hdone : proc_ctx_done p = false).
    { pose proof (f_equal (fun o => match fst o with
                                    | Looping q => proc_ctx_done q
                                    | _ => true
                                    end) Hproc) as Hd.
      vm_compute in Hd. symmetry. exact Hd. }
    exists p, tr. split; [reflexivity |]. split; [exact Hdone |].
    pose proof (process_new_policy_gets_a_live_monitor D schedule [p1; p2]
                  (initial exConfig) p tr "p2" Hfresh Hseen Hin Hproc) as Hlive.
    rewrite Hdone in Hlive. exact Hlive.
  - exfalso.
    pose proof (f_equal (fun o => match fst o with Looping _ => true | _ => false end) Hproc)
      as Hd.
    vm_compute in Hd. discriminate Hd.
  - exfalso.
    pose proof (f_equal (fun o => match fst o with Looping _ => true | _ => false end) Hproc)
      as Hd.
    vm_compute in Hd. discriminate Hd.
Defined.

(** A set of policies that [Run] picks after its context is done starts
    monitors whose contexts are done from the start. *)
Example set_after_done_starts_cancelled_monitors :
  let D := exDeps allKnown [scaleOut] [inr p1] None in
  let status := fst (process D [CancelRun; RunReceives (PoliciesCn [p1])] (initial exConfig)) in
  match status with
  | Looping p =>
      goroutines (proc_state p) = [(0%nat, "p1")] /\
      proc_monitors p !! 0%nat = Some (Started "p1") /\
      liveMonitors (proc_state p) = []
  | _ => False
  end.
Proof. vm_compute. repeat split. Qed.

(** A monitor of the process takes its steps: started, it waits on its
    ticker; on a tick it runs a cycle; once [Run] has returned on the end of
    its context, the status is that of [Run]. *)
Example process_runs_a_cycle_then_returns :
  let D := exDeps allKnown [scaleOut] [inr p1] None in
  let schedule :=
    [RunReceives (PoliciesCn [p1]); MonitorStarts 0; MonitorReceives 0 TickerC;
     CancelRun; RunReceives RunCtxDone] in
  (exists s1, fst (process D schedule (initial exConfig)) = Exited None s1) /\
  scale_calls (snd (process D schedule (initial exConfig)))
  = [(scaleOut, jobWeb, RNil)] /\
  kills (snd (process D schedule (initial exConfig))) = [KAPM; KTarget; KStrategy].
Proof.
  intros D schedule. split; [eexists; vm_compute; reflexivity |].
  split; vm_compute; reflexivity.
Qed.
